(** * image-scan-webhook: the Anchore scan client and the admission response helper

    A shallow embedding of [pkg/anchore/client.go] (package [anchore]) and of
    the [toAdmissionResponse] helper of package [admissionserver].

    Go strings and byte slices are [string]s (sequences of 8-bit characters),
    Go [int]s are [Z], Go maps are [gmap]s, a Go [error] is the message it
    carries ([None] for [nil]).  Everything that reaches outside the process
    (the HTTP exchange with the Anchore engine, [time.Sleep]) is recorded in
    an explicit world that every function threads through.  [klog] output is
    not recorded, except for [klog.Fatal], which ends the process. *)

From Stdlib Require Import Ascii String.
From stdpp Require Import base option list gmap strings pretty.
From Equations Require Import Equations.

#[local] Open Scope Z_scope.

(** ** The Go side: errors, outcomes, the world *)

Module golang.

(** A Go [error] value: [None] is [nil], [Some msg] is an error whose
    [Error()] method returns [msg]. *)
Definition error : Type := option string.

(** How a call ends: it returns, it panics, or the process exits
    ([klog.Fatal]). *)
Inductive Outcome (A : Type) : Type :=
| Return (a : A)
| Panic (msg : string)
| Fatal (msg : string).
Arguments Return {A} a.
Arguments Panic {A} msg.
Arguments Fatal {A} msg.

(** The request built by [http.NewRequest] and decorated with
    [SetBasicAuth] and the Content-Type header.  The body is kept as the
    parameter map handed to [json.Marshal] ([None] for a nil map). *)
Record Request : Type := mkRequest {
  Method : string;
  URL : string;
  Username : string;
  Password : string;
  ContentType : string;
  BodyParams : option (gmap string string)
}.

(** What [ioutil.ReadAll(resp.Body)] gives. *)
Inductive Body : Type :=
| BodyText (text : string)
| ReadError (err : string).

(** What [client.Do] gives: a transport error, or a response with its
    status code and body. *)
Inductive Response : Type :=
| DoError (err : string)
| Reply (StatusCode : Z) (body : Body).

Inductive Event : Type :=
| Exchange (req : Request) (resp : Response)
| Sleep (d : Z).

(** The world is the chronological trace of what the process did so far. *)
Abbreviation World := (list Event).

(** Computations: a state monad over the world with the three outcomes. *)
Definition Run (A : Type) : Type := World → Outcome A * World.

#[export] Instance Run_ret : MRet Run := λ A a w, (Return a, w).

#[export] Instance Run_bind : MBind Run := λ A B f m w,
  match m w with
  | (Return a, w1) => f a w1
  | (Panic msg, w1) => (Panic msg, w1)
  | (Fatal msg, w1) => (Fatal msg, w1)
  end.

Definition panic {A : Type} (msg : string) : Run A := λ w, (Panic msg, w).

(** [klog.Fatal] logs and calls [os.Exit]. *)
Definition klog_Fatal {A : Type} (msg : string) : Run A := λ w, (Fatal msg, w).

(** [time.Second], a [time.Duration] in nanoseconds. *)
Definition time_Second : Z := 1000000000.

(** [time.Sleep(d)]: the world after the sleep, and the call itself. *)
Definition slept (d : Z) (w : World) : World := w ++ [Sleep d].

Definition time_Sleep (d : Z) : Run unit := λ w, (Return tt, slept d w).

(** Slice indexing [l[i]], which panics out of range. *)
Definition index {A : Type} (l : list A) (i : nat) : Run A :=
  match l !! i with
  | Some x => mret x
  | None =>
      panic ("runtime error: index out of range [" +:+ pretty i
             +:+ "] with length " +:+ pretty (length l))
  end.

(** The bytes of a [[]byte]; a nil slice has none. *)
Definition bytes (b : option string) : string := default "" b.

(** [err.Error()], a nil dereference when [err] is nil. *)
Definition Error (err : error) : Run string :=
  match err with
  | Some msg => mret msg
  | None => panic "runtime error: invalid memory address or nil pointer dereference"
  end.

(** [strings.ToLower].  On ASCII bytes this is Go's own fast path
    ([c += 'a' - 'A'] for ['A' <= c <= 'Z']).  Bytes from 0x80 on are left
    in place: Go sends multi-byte runes through its Unicode tables, which
    are not modelled; no rune outside ASCII has an ASCII letter other than
    'i' and 'k' as its lower case, so comparisons of the result with a word
    made of other ASCII letters are not affected. *)
Definition lower (c : ascii) : ascii :=
  let n := N_of_ascii c in
  if ((65 <=? n) && (n <=? 90))%N then ascii_of_N (n + 32) else c.

Fixpoint strings_ToLower (s : string) : string :=
  match s with
  | EmptyString => EmptyString
  | String c s' => String (lower c) (strings_ToLower s')
  end.

End golang.

(** ** Package anchore *)

Module anchore.
Import golang.

Record AnchoreClient : Type := mkAnchoreClient {
  baseUrl : string;
  secureToken : string
}.

(** Modelled from the spec: the type declarations of the package are not
    among the sources.  An image record carries the digest the engine
    computed; a scan report carries a free-text status and a detail
    payload this package never reads. *)
Record Image : Type := mkImage {
  ImageDigest : string
}.

Record ScanReport : Type := mkScanReport {
  Status : string;
  Detail : string
}.

(** [ScanReports]: a sequence of maps digest -> (full tag -> reports), as
    the indexing [result[0][digest][fullTag][0]] has it. *)
Abbreviation ScanReports := (list (gmap string (gmap string (list ScanReport)))).

(** What the code takes from its libraries and from the network.

    - [http_NewRequest method url] is the error of [http.NewRequest];
    - [client_Do w req] is the engine's answer to [req] after the trace [w];
    - the two [json.Unmarshal] instances give the decoded value and the
      error;
    - [reflect_MapKeys w m] is the slice [reflect.ValueOf(m).MapKeys()], the
      keys of [m] in an order Go leaves unspecified (it may change from
      call to call, hence the world). *)
Class Runtime : Type := {
  http_NewRequest : string → string → error;
  client_Do : World → Request → Response;
  json_Unmarshal_ScanReports : string → ScanReports * error;
  json_Unmarshal_Images : string → list Image * error;
  reflect_MapKeys : World → gmap string (list ScanReport) → list string;
  reflect_MapKeys_perm : ∀ w m, reflect_MapKeys w m ≡ₚ elements (dom m)
}.

Section client.
Context `{Runtime}.

Definition NewClient (baseUrl secureToken : string) : AnchoreClient * error :=
  (mkAnchoreClient baseUrl secureToken, None).

Definition errNotFound : string := "response from Anchore: 404".

Definition Do (req : Request) : Run Response := λ w,
  let resp := client_Do w req in (Return resp, w ++ [Exchange req resp]).

Definition MapKeys (m : gmap string (list ScanReport)) : Run (list string) :=
  λ w, (Return (reflect_MapKeys w m), w).

Definition anchoreRequest (c : AnchoreClient) (path : string)
    (bodyParams : option (gmap string string)) (method : string)
    : Run (option string * error) :=
  let fullURL := baseUrl c +:+ path in
  match http_NewRequest method fullURL with
  | Some err => klog_Fatal err
  | None =>
      let req := mkRequest method fullURL (secureToken c) "" "application/json" bodyParams in
      resp ← Do req;
      match resp with
      | DoError err =>
          mret (None, Some ("failed to complete request to Anchore: " +:+ err))
      | Reply StatusCode (ReadError err) =>
          mret (None, Some ("failed to complete request to Anchore: " +:+ err))
      | Reply StatusCode (BodyText bodyText) =>
          if bool_decide (StatusCode ≠ 200)
          then mret (None, Some ("response from Anchore: " +:+ pretty StatusCode))
          else mret (Some bodyText, None)
      end
  end.

Definition getReport (c : AnchoreClient) (digest tag : string)
    : Run (option ScanReport * error) :=
  let path := "/images/" +:+ digest +:+ "/check?tag=" +:+ tag
              +:+ "&history=false&detail=true" in
  '(body, err) ← anchoreRequest c path None "GET";
  match err with
  | Some e =>
      if bool_decide (e = errNotFound)
      then (* warning: the image has not been scanned *) mret (None, Some e)
      else (* error: scan error *) mret (None, Some e)
  | None =>
      let '(result, err) := json_Unmarshal_ScanReports (bytes body) in
      match err with
      | Some e => mret (None, Some e)
      | None =>
          if bool_decide (length result = 0%nat)
          then mret (None, Some "Scan report list is empty")
          else if bool_decide (1 < length result)%nat
          then mret (None, Some "Unexpected scan report: multiple entries")
          else
            entry ← index result 0;
            match entry !! digest with
            | None => mret (None, Some "Digest in the scan report does not match")
            | Some tags =>
                keys ← MapKeys tags;
                fullTag ← index keys 0;
                report ← index (tags !!! fullTag) 0;
                mret (Some report, None)
            end
      end
  end.

Definition getStatus (c : AnchoreClient) (digest tag : string) : Run (bool * error) :=
  '(result, err) ← getReport c digest tag;
  match err with
  | Some e => mret (false, Some e)
  | None =>
      match result with
      | None => panic "runtime error: invalid memory address or nil pointer dereference"
      | Some report =>
          if bool_decide (strings_ToLower (Status report) = "pass")
          then mret (true, None)
          else mret (false, Some "Scan result is FAILED")
      end
  end.

Definition getDigest (c : AnchoreClient) (imageRef : string) : Run (string * error) :=
  let params : gmap string string := {[ "tag" := imageRef; "history" := "true" ]} in
  '(body, err) ← anchoreRequest c "/images" (Some params) "GET";
  match err with
  | Some e => mret ("", Some e)
  | None =>
      let '(images, err) := json_Unmarshal_Images (bytes body) in
      match err with
      | Some e => mret ("", Some ("failed to unmarshal JSON from response: " +:+ e))
      | None =>
          image ← index images 0;
          mret (ImageDigest image, None)
      end
  end.

Definition addImage (c : AnchoreClient) (image : string) : Run error :=
  let params : gmap string string := {[ "tag" := image ]} in
  '(_, err) ← anchoreRequest c "/images" (Some params) "POST";
  match err with
  | Some e => mret (Some e)
  | None => mret None
  end.

(** The [for] loop of [GetImageDigest], from the value [count] has when an
    iteration starts.  It ends because [count] only grows and the loop is
    left once [count >= 5]. *)
Equations? GetImageDigest_loop (c : AnchoreClient) (image : string) (count : Z)
    (w : World) : Outcome (string * error) * World
    by wf (Z.to_nat (5 - count)) lt :=
GetImageDigest_loop c image count w with getDigest c image w => {
  | (Return (digest, None), w1) => (Return (digest, None), w1);
  | (Return (digest, Some err), w1) with decide (count >= 5) => {
      | left _ => (Return (digest, Some err), w1);
      | right _ => GetImageDigest_loop c image (count + 1) (slept time_Second w1) };
  | (Panic msg, w1) => (Panic msg, w1);
  | (Fatal msg, w1) => (Fatal msg, w1) }.
Proof. lia. Qed.

Definition GetImageDigest (c : AnchoreClient) (image : string) : Run (string * error) :=
  err ← addImage c image;
  match err with
  | Some e => mret ("", Some e)
  | None => GetImageDigest_loop c image 0
  end.

Definition CheckImage (c : AnchoreClient) (image : string) : Run (bool * error) :=
  '(digest, err) ← GetImageDigest c image;
  match err with
  | Some _ => mret (false, Some "Unable to obtain image digest")
  | None => getStatus c digest image
  end.

Definition GetScanReport (c : AnchoreClient) (image : string)
    : Run (option ScanReport * error) :=
  '(digest, err) ← GetImageDigest c image;
  match err with
  | Some _ => mret (None, Some "Unable to obtain image digest")
  | None => getReport c digest image
  end.

End client.
End anchore.

(** ** Package admissionserver *)

Module admissionserver.
Import golang.

(** [metav1.Status] and [v1beta1.AdmissionResponse], with the fields the
    helper sets; every other field keeps its zero value. *)
Record Status : Type := mkStatus {
  Message : string
}.

Record AdmissionResponse : Type := mkAdmissionResponse {
  UID : string;
  Allowed : bool;
  Result : option Status
}.

(** toAdmissionResponse is a helper function to create an AdmissionResponse
    with an embedded error. *)
Definition toAdmissionResponse (uid : string) (err : error) : Run AdmissionResponse :=
  msg ← Error err;
  mret (mkAdmissionResponse uid false (Some (mkStatus msg))).

End admissionserver.

(** ** The admission evaluator *)

Module opaimagescanner.
Import golang anchore.


Section evaluator.
Context `{Runtime}.


End evaluator.
End opaimagescanner.

(** ** Vocabulary of the statements *)

Module vocabulary.
Import golang anchore.

(** Two bytes are the same letter when they are equal or are the upper and
    lower case of one ASCII letter (codes 65..90 and 97..122, 32 apart). *)
Definition same_letter (a b : ascii) : bool :=
  let n := N_of_ascii a in
  let m := N_of_ascii b in
  (n =? m)%N
  || ((65 <=? n) && (n <=? 90) && (m =? n + 32))%N
  || ((65 <=? m) && (m <=? 90) && (n =? m + 32))%N.

(** Case-insensitive comparison of two strings. *)
Fixpoint equal_ignoring_case (s t : string) : bool :=
  match s, t with
  | EmptyString, EmptyString => true
  | String a s', String b t' => same_letter a b && equal_ignoring_case s' t'
  | _, _ => false
  end.

(** The request [anchoreRequest] builds from its arguments. *)
Definition requestOf (c : AnchoreClient) (path : string)
    (bodyParams : option (gmap string string)) (method : string) : Request :=
  mkRequest method (baseUrl c +:+ path) (secureToken c) "" "application/json" bodyParams.

(** What a caller of [anchoreRequest] gets for an answer of the engine. *)
Definition received (resp : Response) : option string * error :=
  match resp with
  | DoError err => (None, Some ("failed to complete request to Anchore: " +:+ err))
  | Reply _ (ReadError err) => (None, Some ("failed to complete request to Anchore: " +:+ err))
  | Reply code (BodyText text) =>
      if bool_decide (code = 200) then (Some text, None)
      else (None, Some ("response from Anchore: " +:+ pretty code))
  end.

(** The request [getDigest] sends for an image reference. *)
Definition resolveRequest (c : AnchoreClient) (image : string) : Request :=
  mkRequest "GET" (baseUrl c +:+ "/images") (secureToken c) "" "application/json"
            (Some {[ "tag" := image; "history" := "true" ]}).

(** The request [getReport] sends for a digest and a tag. *)
Definition reportRequest (c : AnchoreClient) (digest tag : string) : Request :=
  mkRequest "GET"
            (baseUrl c +:+ "/images/" +:+ digest +:+ "/check?tag=" +:+ tag
             +:+ "&history=false&detail=true")
            (secureToken c) "" "application/json" None.

(** [attempts req evs n]: the trace [evs] is [n] exchanges of the request
    [req], with a sleep of one second between two consecutive ones and
    nothing else. *)
Inductive attempts (req : Request) : list Event → nat → Prop :=
| attempts_none : attempts req [] 0
| attempts_one resp : attempts req [Exchange req resp] 1
| attempts_more resp evs n :
    attempts req evs (S n) →
    attempts req (Exchange req resp :: Sleep time_Second :: evs) (S (S n)).

(** The request [addImage] sends for an image reference. *)
Definition registerRequest (c : AnchoreClient) (image : string) : Request :=
  mkRequest "POST" (baseUrl c +:+ "/images") (secureToken c) "" "application/json"
            (Some {[ "tag" := image ]}).

(** The number of requests in a trace, and the time spent asleep in it. *)
Fixpoint requests (evs : list Event) : nat :=
  match evs with
  | [] => 0
  | Exchange _ _ :: evs' => S (requests evs')
  | Sleep _ :: evs' => requests evs'
  end.

Fixpoint asleep (evs : list Event) : Z :=
  match evs with
  | [] => 0
  | Exchange _ _ :: evs' => asleep evs'
  | Sleep d :: evs' => d + asleep evs'
  end.

(** A request of the client [c]: it goes to a URL under the client's base
    URL and carries the client's token as the user name of the basic
    authentication, with an empty password. *)
Definition of_client (c : AnchoreClient) (req : Request) : Prop :=
  (∃ path, URL req = baseUrl c +:+ path)
  ∧ Username req = secureToken c
  ∧ Password req = ""
  ∧ ContentType req = "application/json".

(** Every request of the trace is one of the client [c]. *)
Fixpoint all_of_client (c : AnchoreClient) (evs : list Event) : Prop :=
  match evs with
  | [] => True
  | Exchange req _ :: evs' => of_client c req ∧ all_of_client c evs'
  | Sleep _ :: evs' => all_of_client c evs'
  end.

Section worlds.
Context `{Runtime}.

(** The world in which attempt number [k] (from 0) of the retry loop starts,
    when the loop starts in [w0] and no earlier attempt left it. *)
Fixpoint attempt_world (c : AnchoreClient) (image : string) (k : nat) (w0 : World) : World :=
  match k with
  | O => w0
  | S k' => slept time_Second (getDigest c image (attempt_world c image k' w0)).2
  end.

(** Attempt number [k] returns an error. *)
Definition attempt_fails (c : AnchoreClient) (image : string) (w0 : World) (k : nat) : Prop :=
  ∃ digest e, (getDigest c image (attempt_world c image k w0)).1 = Return (digest, Some e).


End worlds.
End vocabulary.

(** ** A scripted engine, for concrete runs *)

Module scripted.
Import golang anchore.

Definition is_exchange (ev : Event) : bool :=
  match ev with
  | Exchange _ _ => true
  | Sleep _ => false
  end.

(** The number of requests sent so far. *)
Definition sent (w : World) : nat := length (filter is_exchange w).

(** The engine answers the n-th request of the process with the n-th entry
    of the script, and refuses the connection once the script is over. *)
Definition script_Do (script : list Response) (w : World) (req : Request) : Response :=
  default (DoError "connection refused") (script !! sent w).

(** Decoding by table: a body listed in the table decodes to its entry,
    any other body is a syntax error. *)
Definition decode {A : Type} (zero : A) (table : gmap string A) (body : string) : A * error :=
  match table !! body with
  | Some v => (v, None)
  | None => (zero, Some "invalid character")
  end.

Definition runtime (script : list Response) (reports : gmap string ScanReports)
    (images : gmap string (list Image)) : Runtime :=
  {| http_NewRequest := λ _ _, None;
     client_Do := script_Do script;
     json_Unmarshal_ScanReports := decode [] reports;
     json_Unmarshal_Images := decode [] images;
     reflect_MapKeys := λ _ m, elements (dom m);
     reflect_MapKeys_perm := λ _ _, reflexivity _ |}.

Definition client : AnchoreClient := mkAnchoreClient "https://anchore" "token".

(** The bodies the engine of the examples sends, and what they decode to. *)
Definition images : gmap string (list Image) :=
  {[ "images:app" := [mkImage "sha256:aa"];
     "images:none" := [] ]}.

Definition report (status : string) : ScanReports :=
  [ {[ "sha256:aa" := {[ "docker.io/app:1" := [mkScanReport status "detail"] ]} ]} ].

Definition reports : gmap string ScanReports :=
  {[ "report:pass" := report "PaSs";
     "report:fail" := report "fail";
     "report:none" := [];
     "report:two" := report "pass" ++ report "pass";
     "report:other" := [ {[ "sha256:bb" := {[ "docker.io/app:1" := [mkScanReport "pass" "detail"] ]} ]} ];
     "report:notag" := [ {[ "sha256:aa" := ∅ ]} ] ]}.

Definition engine (script : list Response) : Runtime := runtime script reports images.

Definition ok (body : string) : Response := Reply 200 (BodyText body).
Definition status (code : Z) : Response := Reply code (BodyText "").

Definition app : string := "docker.io/app:1".

(** The three exchanges of the examples. *)
Definition registered (image : string) : Event :=
  Exchange (vocabulary.requestOf client "/images" (Some {[ "tag" := image ]}) "POST") (ok "").
Definition resolved (image : string) (resp : Response) : Event :=
  Exchange (vocabulary.resolveRequest client image) resp.
Definition reported (digest tag : string) (resp : Response) : Event :=
  Exchange (vocabulary.reportRequest client digest tag) resp.

(** The same engine behind a [http.NewRequest] that rejects one URL. *)
Definition strict (rejected : string) (script : list Response) : Runtime :=
  {| http_NewRequest := λ _ url,
       if bool_decide (url = rejected) then Some "net/url: invalid URL" else None;
     client_Do := script_Do script;
     json_Unmarshal_ScanReports := decode [] reports;
     json_Unmarshal_Images := decode [] images;
     reflect_MapKeys := λ _ m, elements (dom m);
     reflect_MapKeys_perm := λ _ _, reflexivity _ |}.

End scripted.

(** * Properties *)

Import golang anchore vocabulary.

(** ** Running the monad *)

Lemma bind_Return {A B : Type} (m : Run A) (f : A → Run B) w a w1 :
  m w = (Return a, w1) → (m ≫= f) w = f a w1.
Proof. intros Hm. unfold mbind, Run_bind. by rewrite Hm. Qed.

Lemma bind_Panic {A B : Type} (m : Run A) (f : A → Run B) w msg w1 :
  m w = (Panic msg, w1) → (m ≫= f) w = (Panic msg, w1).
Proof. intros Hm. unfold mbind, Run_bind. by rewrite Hm. Qed.

Lemma bind_Fatal {A B : Type} (m : Run A) (f : A → Run B) w msg w1 :
  m w = (Fatal msg, w1) → (m ≫= f) w = (Fatal msg, w1).
Proof. intros Hm. unfold mbind, Run_bind. by rewrite Hm. Qed.

(** ** strings.ToLower against the word pass *)

Lemma lower_p a : lower a = "p"%char ↔ same_letter a "p" = true.
Proof.
  destruct a as [[] [] [] [] [] [] [] []]; vm_compute; split; congruence.
Qed.

Lemma lower_a a : lower a = "a"%char ↔ same_letter a "a" = true.
Proof.
  destruct a as [[] [] [] [] [] [] [] []]; vm_compute; split; congruence.
Qed.

Lemma lower_s a : lower a = "s"%char ↔ same_letter a "s" = true.
Proof.
  destruct a as [[] [] [] [] [] [] [] []]; vm_compute; split; congruence.
Qed.

Lemma ToLower_pass (s : string) :
  strings_ToLower s = "pass" ↔ equal_ignoring_case s "pass" = true.
Proof.
  destruct s as [|c1 [|c2 [|c3 [|c4 [|c5 s]]]]]; simpl.
  5: { rewrite andb_true_r, !andb_true_iff, <- lower_p, <- lower_a, <- !lower_s.
       split.
       - intros [= H1 H2 H3 H4]. done.
       - intros (-> & -> & -> & ->). done. }
  all: split; [discriminate | rewrite ?andb_false_r; discriminate].
Qed.

(** ** anchoreRequest *)

Section request.
Context `{Runtime}.

Lemma anchoreRequest_sends c path bodyParams method w :
  http_NewRequest method (baseUrl c +:+ path) = None →
  anchoreRequest c path bodyParams method w =
    (Return (received (client_Do w (requestOf c path bodyParams method))),
     w ++ [Exchange (requestOf c path bodyParams method)
                    (client_Do w (requestOf c path bodyParams method))]).
Proof.
  intros Hnew. unfold anchoreRequest. rewrite Hnew.
  unfold mbind, Run_bind, Do, requestOf.
  destruct (client_Do _ _) as [err | code [text | err]]; simpl; try done.
  repeat case_bool_decide; done.
Qed.

Lemma anchoreRequest_exits c path bodyParams method w err :
  http_NewRequest method (baseUrl c +:+ path) = Some err →
  anchoreRequest c path bodyParams method w = (Fatal err, w).
Proof. intros Hnew. unfold anchoreRequest. by rewrite Hnew. Qed.

End request.

(** ** The verdict: getStatus *)

Section verdict.
Context `{Runtime}.

Lemma getStatus_of_report c digest tag w report w1 :
  getReport c digest tag w = (Return (Some report, None), w1) →
  getStatus c digest tag w =
    (Return (if equal_ignoring_case (Status report) "pass"
             then (true, None) else (false, Some "Scan result is FAILED")), w1).
Proof.
  intros Hrep. unfold getStatus. rewrite (bind_Return _ _ _ _ _ Hrep).
  case_bool_decide as Hlow; rewrite ToLower_pass in Hlow.
  - by rewrite Hlow.
  - by apply not_true_is_false in Hlow as ->.
Qed.

Lemma getStatus_of_error c digest tag w result e w1 :
  getReport c digest tag w = (Return (result, Some e), w1) →
  getStatus c digest tag w = (Return (false, Some e), w1).
Proof. intros Hrep. unfold getStatus. by rewrite (bind_Return _ _ _ _ _ Hrep). Qed.

(** Whatever [getStatus] returns, it never returns [true] with an error,
    and never [false] without one. *)
Lemma getStatus_returns c digest tag w ok err w1 :
  getStatus c digest tag w = (Return (ok, err), w1) →
  (ok = true ∧ err = None) ∨ (ok = false ∧ is_Some err).
Proof.
  unfold getStatus, mbind, Run_bind.
  destruct (getReport c digest tag w) as [[[[report|] [e|]] | msg | msg] w2];
    try discriminate; simpl.
  - intros [= <- <- <-]. right. eauto.
  - case_bool_decide; intros [= <- <- <-]; [left | right]; eauto.
  - intros [= <- <- <-]. right. eauto.
Qed.

(** C1.  [getStatus] returns [(true, nil)] exactly when the report fetched
    for the digest has a status that equals "pass" up to the case of its
    letters; for a report with any other status it returns [false] with the
    error "Scan result is FAILED". *)
Theorem getStatus_pass_iff c digest tag w w1 :
  (getStatus c digest tag w = (Return (true, None), w1)
   ↔ ∃ report, getReport c digest tag w = (Return (Some report, None), w1)
               ∧ equal_ignoring_case (Status report) "pass" = true)
  ∧ (∀ report,
       getReport c digest tag w = (Return (Some report, None), w1) →
       equal_ignoring_case (Status report) "pass" = false →
       getStatus c digest tag w = (Return (false, Some "Scan result is FAILED"), w1)).
Proof.
  split; [split |].
  - intros Hst.
    destruct (getReport c digest tag w) as [[[[report|] [e|]] | msg | msg] w2] eqn:Hrep.
    + rewrite (getStatus_of_error _ _ _ _ _ _ _ Hrep) in Hst. discriminate.
    + rewrite (getStatus_of_report _ _ _ _ _ _ Hrep) in Hst.
      destruct (equal_ignoring_case _ _) eqn:Hcase; [|discriminate].
      injection Hst as <-. eauto.
    + rewrite (getStatus_of_error _ _ _ _ _ _ _ Hrep) in Hst. discriminate.
    + unfold getStatus in Hst. rewrite (bind_Return _ _ _ _ _ Hrep) in Hst. discriminate.
    + unfold getStatus in Hst. rewrite (bind_Panic _ _ _ _ _ Hrep) in Hst. discriminate.
    + unfold getStatus in Hst. rewrite (bind_Fatal _ _ _ _ _ Hrep) in Hst. discriminate.
  - intros (report & Hrep & Hcase).
    by rewrite (getStatus_of_report _ _ _ _ _ _ Hrep), Hcase.
  - intros report Hrep Hcase.
    by rewrite (getStatus_of_report _ _ _ _ _ _ Hrep), Hcase.
Qed.

End verdict.

(** ** The admission response helper *)

Section response.
Import admissionserver.

(** C10.  For every request UID and every non-nil error the helper returns
    a response that is not allowed, carries the UID it was given and has
    the error's message as its result message; and whatever it is given, a
    response it returns is never allowed. *)
Theorem toAdmissionResponse_denies (uid : string) :
  (∀ (msg : string) (w : World),
     toAdmissionResponse uid (Some msg) w =
       (Return {| UID := uid; Allowed := false; Result := Some {| Message := msg |} |}, w))
  ∧ (∀ (err : error) (w w1 : World) (resp : AdmissionResponse),
       toAdmissionResponse uid err w = (Return resp, w1) → Allowed resp = false).
Proof.
  split; [done |].
  intros [msg|] w w1 resp; [| discriminate].
  by intros [= <- <-].
Qed.

End response.

(** ** Fetching the report: getReport *)

Section report.
Context `{Runtime}.

Lemma reportRequest_eq c digest tag :
  requestOf c ("/images/" +:+ digest +:+ "/check?tag=" +:+ tag
               +:+ "&history=false&detail=true") None "GET"
  = reportRequest c digest tag.
Proof. reflexivity. Qed.

(** The first steps of [getReport]: the request is sent and the caller is
    left with what [anchoreRequest] made of the answer. *)
Lemma getReport_answer c digest tag w :
  http_NewRequest "GET" (URL (reportRequest c digest tag)) = None →
  getReport c digest tag w =
    (let '(body, err) := received (client_Do w (reportRequest c digest tag)) in
     match err with
     | Some e => mret (None, Some e)
     | None =>
         let '(result, err) := json_Unmarshal_ScanReports (bytes body) in
         match err with
         | Some e => mret (None, Some e)
         | None =>
             match result with
             | [] => mret (None, Some "Scan report list is empty")
             | [entry] =>
                 match entry !! digest with
                 | None => mret (None, Some "Digest in the scan report does not match")
                 | Some tags =>
                     keys ← MapKeys tags;
                     fullTag ← index keys 0;
                     report ← index (tags !!! fullTag) 0;
                     mret (Some report, None)
                 end
             | _ => mret (None, Some "Unexpected scan report: multiple entries")
             end
         end
     end) (w ++ [Exchange (reportRequest c digest tag)
                          (client_Do w (reportRequest c digest tag))]).
Proof.
  intros Hnew. unfold getReport.
  rewrite (bind_Return _ _ _ _ _ (anchoreRequest_sends _ _ _ _ _ Hnew)).
  rewrite reportRequest_eq.
  destruct (received _) as [body [e|]].
  - by case_bool_decide.
  - destruct (json_Unmarshal_ScanReports _) as [[|entry [|entry' result]] [e|]]; done.
Qed.

(** C6.  When the engine answers 200 with a body that decodes to a
    collection with no entry, with more than one entry, or with a single
    entry that has no key for the queried digest, [getReport] returns a nil
    report together with the error that names the violation. *)
Theorem getReport_integrity c digest tag w text (result : ScanReports) :
  http_NewRequest "GET" (URL (reportRequest c digest tag)) = None →
  client_Do w (reportRequest c digest tag) = Reply 200 (BodyText text) →
  json_Unmarshal_ScanReports text = (result, None) →
  let w1 := w ++ [Exchange (reportRequest c digest tag) (Reply 200 (BodyText text))] in
  (length result = 0%nat →
     getReport c digest tag w = (Return (None, Some "Scan report list is empty"), w1))
  ∧ ((1 < length result)%nat →
     getReport c digest tag w =
       (Return (None, Some "Unexpected scan report: multiple entries"), w1))
  ∧ (∀ entry, result = [entry] → entry !! digest = None →
     getReport c digest tag w =
       (Return (None, Some "Digest in the scan report does not match"), w1)).
Proof.
  intros Hnew Hdo Hdec w1. rewrite (getReport_answer _ _ _ _ Hnew), Hdo.
  simpl. rewrite Hdec. subst w1. repeat split.
  - by destruct result.
  - destruct result as [|entry [|entry' result]]; simpl; [lia | lia | done].
  - by intros entry -> ->.
Qed.

(** C7, on the code.  When the single entry of the collection has the
    queried digest but no tag key under it, [getReport] does not return at
    all: taking the first of no keys panics. *)
Theorem getReport_missing_tag_panics c digest tag w text (entry : gmap string (gmap string (list ScanReport))) :
  http_NewRequest "GET" (URL (reportRequest c digest tag)) = None →
  client_Do w (reportRequest c digest tag) = Reply 200 (BodyText text) →
  json_Unmarshal_ScanReports text = ([entry], None) →
  entry !! digest = Some ∅ →
  getReport c digest tag w =
    (Panic "runtime error: index out of range [0] with length 0",
     w ++ [Exchange (reportRequest c digest tag) (Reply 200 (BodyText text))]).
Proof.
  intros Hnew Hdo Hdec Hdig. rewrite (getReport_answer _ _ _ _ Hnew), Hdo.
  simpl. rewrite Hdec, Hdig.
  unfold mbind, Run_bind, MapKeys.
  pose proof (reflect_MapKeys_perm
    (w ++ [Exchange (reportRequest c digest tag) (Reply 200 (BodyText text))]) ∅) as Hperm.
  rewrite dom_empty_L, elements_empty in Hperm.
  apply Permutation_nil_r in Hperm. by rewrite Hperm.
Qed.

(** C8, as the code has it.  A response whose status code is not 200
    makes [anchoreRequest] return an error and no body; a 404 whose body
    could be read gives the error [errNotFound]; on such a 404 [getReport]
    hands that error to its caller after this one exchange, with no retry
    and no sleep.  A response whose body could not be read gives the error
    of a request that was not completed, whatever its status code is: the
    body is read before the status is looked at. *)
Theorem non200_is_error c w :
  (∀ path bodyParams method code body,
     http_NewRequest method (baseUrl c +:+ path) = None →
     client_Do w (requestOf c path bodyParams method) = Reply code body →
     code ≠ 200 →
     ∃ e, anchoreRequest c path bodyParams method w =
            (Return (None, Some e),
             w ++ [Exchange (requestOf c path bodyParams method) (Reply code body)]))
  ∧ (∀ path bodyParams method text,
     http_NewRequest method (baseUrl c +:+ path) = None →
     client_Do w (requestOf c path bodyParams method) = Reply 404 (BodyText text) →
     anchoreRequest c path bodyParams method w =
       (Return (None, Some errNotFound),
        w ++ [Exchange (requestOf c path bodyParams method) (Reply 404 (BodyText text))]))
  ∧ (∀ digest tag text,
     http_NewRequest "GET" (URL (reportRequest c digest tag)) = None →
     client_Do w (reportRequest c digest tag) = Reply 404 (BodyText text) →
     getReport c digest tag w =
       (Return (None, Some errNotFound),
        w ++ [Exchange (reportRequest c digest tag) (Reply 404 (BodyText text))]))
  ∧ (∀ path bodyParams method code err,
     http_NewRequest method (baseUrl c +:+ path) = None →
     client_Do w (requestOf c path bodyParams method) = Reply code (ReadError err) →
     anchoreRequest c path bodyParams method w =
       (Return (None, Some ("failed to complete request to Anchore: " +:+ err)),
        w ++ [Exchange (requestOf c path bodyParams method) (Reply code (ReadError err))])).
Proof.
  repeat split.
  - intros path bodyParams method code body Hnew Hdo Hcode.
    rewrite (anchoreRequest_sends _ _ _ _ _ Hnew), Hdo.
    destruct body as [text | err]; simpl; [| eauto].
    rewrite bool_decide_eq_false_2 by done. eauto.
  - intros path bodyParams method text Hnew Hdo.
    by rewrite (anchoreRequest_sends _ _ _ _ _ Hnew), Hdo.
  - intros digest tag text Hnew Hdo.
    by rewrite (getReport_answer _ _ _ _ Hnew), Hdo.
  - intros path bodyParams method code err Hnew Hdo.
    by rewrite (anchoreRequest_sends _ _ _ _ _ Hnew), Hdo.
Qed.

End report.

(** ** Resolving the digest: getDigest *)

Section digest.
Context `{Runtime}.

Lemma resolveRequest_eq c image :
  requestOf c "/images" (Some {[ "tag" := image; "history" := "true" ]}) "GET"
  = resolveRequest c image.
Proof. reflexivity. Qed.

Lemma getDigest_answer c imageRef w :
  http_NewRequest "GET" (URL (resolveRequest c imageRef)) = None →
  getDigest c imageRef w =
    (let '(body, err) := received (client_Do w (resolveRequest c imageRef)) in
     match err with
     | Some e => mret ("", Some e)
     | None =>
         let '(images, err) := json_Unmarshal_Images (bytes body) in
         match err with
         | Some e => mret ("", Some ("failed to unmarshal JSON from response: " +:+ e))
         | None => image ← index images 0; mret (ImageDigest image, None)
         end
     end) (w ++ [Exchange (resolveRequest c imageRef)
                          (client_Do w (resolveRequest c imageRef))]).
Proof.
  intros Hnew. unfold getDigest.
  rewrite (bind_Return _ _ _ _ _ (anchoreRequest_sends _ _ _ _ _ Hnew)).
  by rewrite resolveRequest_eq.
Qed.

(** One attempt is one exchange. *)
Lemma getDigest_world c imageRef w :
  http_NewRequest "GET" (URL (resolveRequest c imageRef)) = None →
  (getDigest c imageRef w).2 =
    w ++ [Exchange (resolveRequest c imageRef) (client_Do w (resolveRequest c imageRef))].
Proof.
  intros Hnew. rewrite (getDigest_answer _ _ _ Hnew).
  destruct (received _) as [body [e|]]; [done |].
  destruct (json_Unmarshal_Images _) as [[|image images] [e|]]; done.
Qed.

Lemma getDigest_exits c imageRef w err :
  http_NewRequest "GET" (URL (resolveRequest c imageRef)) = Some err →
  getDigest c imageRef w = (Fatal err, w).
Proof.
  intros Hnew. unfold getDigest.
  by rewrite (bind_Fatal _ _ _ _ _ (anchoreRequest_exits _ _ _ _ _ _ Hnew)).
Qed.

(** C9.  On a 200 answer whose body decodes without error, [getDigest]
    returns the digest of the first image record when there is one; when
    the decoded list is empty the unguarded [images[0]] panics, so that
    neither a digest nor an error is returned. *)
Theorem getDigest_first_image c imageRef w text (images : list Image) :
  http_NewRequest "GET" (URL (resolveRequest c imageRef)) = None →
  client_Do w (resolveRequest c imageRef) = Reply 200 (BodyText text) →
  json_Unmarshal_Images text = (images, None) →
  let w1 := w ++ [Exchange (resolveRequest c imageRef) (Reply 200 (BodyText text))] in
  (∀ image rest, images = image :: rest →
     getDigest c imageRef w = (Return (ImageDigest image, None), w1))
  ∧ (images = [] →
     getDigest c imageRef w =
       (Panic "runtime error: index out of range [0] with length 0", w1)
     ∧ ∀ digest err w2, getDigest c imageRef w ≠ (Return (digest, err), w2)).
Proof.
  intros Hnew Hdo Hdec w1. rewrite (getDigest_answer _ _ _ Hnew), Hdo.
  simpl. rewrite Hdec. subst w1. split.
  - by intros image rest ->.
  - intros ->. split; [done |]. by intros digest err w2.
Qed.

End digest.

(** ** The retry loop: GetImageDigest *)

Section retry.
Context `{Runtime}.

Lemma GetImageDigest_loop_step c image count w :
  GetImageDigest_loop c image count w =
    match getDigest c image w with
    | (Return (digest, None), w1) => (Return (digest, None), w1)
    | (Return (digest, Some err), w1) =>
        if decide (count >= 5) then (Return (digest, Some err), w1)
        else GetImageDigest_loop c image (count + 1) (slept time_Second w1)
    | (Panic msg, w1) => (Panic msg, w1)
    | (Fatal msg, w1) => (Fatal msg, w1)
    end.
Proof.
  rewrite GetImageDigest_loop_equation_1.
  destruct (getDigest c image w) as [[[digest [e|]] | msg | msg] w1]; simpl; try done.
  by destruct (decide (count >= 5)).
Qed.

Lemma GetImageDigest_registered c image w w0 :
  addImage c image w = (Return None, w0) →
  GetImageDigest c image w = GetImageDigest_loop c image 0 w0.
Proof. intros Hadd. unfold GetImageDigest. by rewrite (bind_Return _ _ _ _ _ Hadd). Qed.

(** As long as the attempts fail, the loop goes from one attempt to the
    next, whatever the errors are. *)
Lemma GetImageDigest_loop_advance c image w0 (k : nat) :
  (k ≤ 5)%nat →
  (∀ j, (j < k)%nat → attempt_fails c image w0 j) →
  GetImageDigest_loop c image 0 w0 =
    GetImageDigest_loop c image (Z.of_nat k) (attempt_world c image k w0).
Proof.
  induction k as [|k IH]; intros Hk Hfail; [done |].
  rewrite IH by (try lia; intros j Hj; apply Hfail; lia).
  destruct (Hfail k) as (digest & e & Hatt); [lia |].
  rewrite GetImageDigest_loop_step. simpl attempt_world.
  destruct (getDigest c image (attempt_world c image k w0)) as [o w1].
  simpl in Hatt. subst o. simpl.
  destruct (decide (Z.of_nat k >= 5)); [lia |].
  f_equal. lia.
Qed.

(** The trace of the loop when requests can be built: at least one attempt,
    at most as many as [count] leaves. *)
Lemma GetImageDigest_loop_trace c image (n : nat) : ∀ count w,
  http_NewRequest "GET" (URL (resolveRequest c image)) = None →
  0 ≤ count ≤ 5 →
  Z.to_nat (5 - count) = n →
  ∃ evs m, (GetImageDigest_loop c image count w).2 = w ++ evs
           ∧ attempts (resolveRequest c image) evs (S m)
           ∧ (S m ≤ S n)%nat.
Proof.
  induction n as [|n IH]; intros count w Hnew Hcount Hn;
    rewrite GetImageDigest_loop_step;
    pose proof (getDigest_world c image w Hnew) as Hw;
    destruct (getDigest c image w) as [[[digest [e|]] | msg | msg] w1];
    simpl in Hw; subst w1;
    try (eexists [_], 0%nat; split; [done |]; split; [constructor | lia]).
  - destruct (decide (count >= 5)); [| lia].
    eexists [_], 0%nat. split; [done |]. split; [constructor | lia].
  - destruct (decide (count >= 5)); [lia |].
    destruct (IH (count + 1)
                (slept time_Second (w ++ [Exchange (resolveRequest c image)
                   (client_Do w (resolveRequest c image))])) Hnew)
      as (evs & m & Hevs & Hatt & Hm); [lia | lia |].
    exists (Exchange (resolveRequest c image) (client_Do w (resolveRequest c image))
              :: Sleep time_Second :: evs), (S m).
    split; [| split; [by constructor | lia]].
    rewrite Hevs. unfold slept. by rewrite <- !app_assoc.
Qed.

Lemma GetImageDigest_trace c image w :
  ∃ evs n, (GetImageDigest c image w).2 = (addImage c image w).2 ++ evs
           ∧ attempts (resolveRequest c image) evs n
           ∧ (n ≤ 6)%nat.
Proof.
  unfold GetImageDigest, mbind, Run_bind.
  destruct (addImage c image w) as [[[e|] | msg | msg] w0]; simpl;
    try (exists [], 0%nat; rewrite app_nil_r; split; [done |]; split; [constructor | lia]).
  destruct (http_NewRequest "GET" (URL (resolveRequest c image))) as [err|] eqn:Hnew.
  - exists [], 0%nat. rewrite app_nil_r. split; [| split; [constructor | lia]].
    rewrite GetImageDigest_loop_step. by rewrite (getDigest_exits _ _ _ _ Hnew).
  - destruct (GetImageDigest_loop_trace c image 5 0 w0 Hnew) as (evs & m & ? & ? & ?);
      [lia | done |].
    exists evs, (S m). split; [done |]. split; [done | lia].
Qed.

(** C2.  [GetImageDigest] makes at most 6 attempts to resolve the digest,
    with a sleep of one second between two consecutive attempts and nothing
    else after the registration; once the image is registered, the first
    attempt that succeeds ends the call with its digest, and when the sixth
    attempt fails as the five before it, the call ends with the error of
    that sixth attempt. *)
Theorem GetImageDigest_bounded_retry c image w :
  (∃ evs n, (GetImageDigest c image w).2 = (addImage c image w).2 ++ evs
            ∧ attempts (resolveRequest c image) evs n
            ∧ (n ≤ 6)%nat)
  ∧ (∀ w0 (k : nat) digest w1,
       addImage c image w = (Return None, w0) →
       (k ≤ 5)%nat →
       (∀ j, (j < k)%nat → attempt_fails c image w0 j) →
       getDigest c image (attempt_world c image k w0) = (Return (digest, None), w1) →
       GetImageDigest c image w = (Return (digest, None), w1))
  ∧ (∀ w0 digest e w1,
       addImage c image w = (Return None, w0) →
       (∀ j, (j < 5)%nat → attempt_fails c image w0 j) →
       getDigest c image (attempt_world c image 5 w0) = (Return (digest, Some e), w1) →
       GetImageDigest c image w = (Return (digest, Some e), w1)).
Proof.
  split; [apply GetImageDigest_trace | split].
  - intros w0 k digest w1 Hadd Hk Hfail Hok.
    rewrite (GetImageDigest_registered _ _ _ _ Hadd).
    rewrite (GetImageDigest_loop_advance _ _ _ k Hk Hfail).
    rewrite GetImageDigest_loop_step. by rewrite Hok.
  - intros w0 digest e w1 Hadd Hfail Hlast.
    rewrite (GetImageDigest_registered _ _ _ _ Hadd).
    rewrite (GetImageDigest_loop_advance _ _ _ 5%nat (le_n _) Hfail).
    rewrite GetImageDigest_loop_step. by rewrite Hlast.
Qed.

(** An engine that has no record of the image, whenever it is asked: the
    call ends after exactly six attempts, with the error of a 404. *)
Lemma GetImageDigest_never_found c image w w0 :
  http_NewRequest "GET" (URL (resolveRequest c image)) = None →
  addImage c image w = (Return None, w0) →
  (∀ w', ∃ text, client_Do w' (resolveRequest c image) = Reply 404 (BodyText text)) →
  ∃ evs, GetImageDigest c image w = (Return ("", Some errNotFound), w0 ++ evs)
         ∧ attempts (resolveRequest c image) evs 6.
Proof.
  intros Hnew Hadd H404.
  assert (∀ w', getDigest c image w' =
                (Return ("", Some errNotFound),
                 w' ++ [Exchange (resolveRequest c image)
                                 (client_Do w' (resolveRequest c image))])) as Hone.
  { intros w'. rewrite (getDigest_answer _ _ _ Hnew).
    by destruct (H404 w') as [text ->]. }
  rewrite (GetImageDigest_registered _ _ _ _ Hadd).
  do 5 (rewrite GetImageDigest_loop_step, Hone;
        destruct (decide (_ >= 5)) as [Hge | _]; [lia |]).
  rewrite GetImageDigest_loop_step, Hone.
  destruct (decide (_ >= 5)) as [_ | Hlt]; [| lia].
  unfold slept. rewrite <- !app_assoc. simpl.
  eexists. split; [reflexivity |]. repeat constructor.
Qed.

(** C5, as the code has it.  Once the image is registered, an attempt that
    fails is followed by a sleep of one second and a further attempt as
    long as fewer than 6 attempts were made, whatever the error of the
    failed attempt is. *)
Theorem GetImageDigest_retries_every_error c image w w0 (k : nat) digest e w1 :
  addImage c image w = (Return None, w0) →
  (k < 5)%nat →
  (∀ j, (j < k)%nat → attempt_fails c image w0 j) →
  getDigest c image (attempt_world c image k w0) = (Return (digest, Some e), w1) →
  GetImageDigest c image w =
    GetImageDigest_loop c image (Z.of_nat k + 1) (slept time_Second w1)
  ∧ ∃ resp evs,
      (GetImageDigest c image w).2 =
        w1 ++ Sleep time_Second :: Exchange (resolveRequest c image) resp :: evs.
Proof.
  intros Hadd Hk Hfail Hatt.
  assert (GetImageDigest c image w =
          GetImageDigest_loop c image (Z.of_nat k + 1) (slept time_Second w1)) as Hgo.
  { rewrite (GetImageDigest_registered _ _ _ _ Hadd).
    rewrite (GetImageDigest_loop_advance _ _ _ k) by (done || lia).
    rewrite GetImageDigest_loop_step, Hatt.
    by destruct (decide (Z.of_nat k >= 5)); [lia |]. }
  split; [done |]. rewrite Hgo.
  destruct (http_NewRequest "GET" (URL (resolveRequest c image))) as [err|] eqn:Hnew.
  { by rewrite (getDigest_exits _ _ _ _ Hnew) in Hatt. }
  destruct (GetImageDigest_loop_trace c image (Z.to_nat (5 - (Z.of_nat k + 1)))
              (Z.of_nat k + 1) (slept time_Second w1) Hnew)
    as (evs & m & Hevs & Hshape & _); [lia | done |].
  rewrite Hevs. unfold slept. rewrite <- app_assoc. simpl.
  inversion Hshape; subst; eauto.
Qed.

End retry.

(** ** The check of one image: CheckImage *)

Section check.
Context `{Runtime}.

(** What [CheckImage] can return: [true] without an error, and then both
    steps succeeded, or [false] with an error. *)
Lemma CheckImage_returns c image w ok err w2 :
  CheckImage c image w = (Return (ok, err), w2) →
  (ok = true ∧ err = None
   ∧ ∃ digest w1, GetImageDigest c image w = (Return (digest, None), w1)
                  ∧ getStatus c digest image w1 = (Return (true, None), w2))
  ∨ (ok = false ∧ is_Some err).
Proof.
  unfold CheckImage, mbind at 1, Run_bind.
  destruct (GetImageDigest c image w) as [[[digest [e|]] | msg | msg] w1];
    try discriminate.
  - intros [= <- <- <-]. right. eauto.
  - intros Hst. destruct (getStatus_returns _ _ _ _ _ _ _ Hst) as [[-> ->] | [-> Herr]].
    + left. eauto 10.
    + right. eauto.
Qed.

(** C3.  [CheckImage] fails closed: an error of [GetImageDigest] gives
    [false] with the error "Unable to obtain image digest", an error of the
    verdict step gives [false] with that error, and a returned [true] comes
    with no error and only after both steps succeeded. *)
Theorem CheckImage_fail_closed c image w :
  (∀ digest e w1,
     GetImageDigest c image w = (Return (digest, Some e), w1) →
     CheckImage c image w = (Return (false, Some "Unable to obtain image digest"), w1))
  ∧ (∀ digest w1 ok e w2,
     GetImageDigest c image w = (Return (digest, None), w1) →
     getStatus c digest image w1 = (Return (ok, Some e), w2) →
     CheckImage c image w = (Return (false, Some e), w2))
  ∧ (∀ ok err w2,
     CheckImage c image w = (Return (ok, err), w2) →
     (ok = true ∧ err = None
      ∧ ∃ digest w1, GetImageDigest c image w = (Return (digest, None), w1)
                     ∧ getStatus c digest image w1 = (Return (true, None), w2))
     ∨ (ok = false ∧ is_Some err)).
Proof.
  split; [| split].
  - intros digest e w1 Hdig. unfold CheckImage.
    by rewrite (bind_Return _ _ _ _ _ Hdig).
  - intros digest w1 ok e w2 Hdig Hst. unfold CheckImage.
    rewrite (bind_Return _ _ _ _ _ Hdig). rewrite Hst.
    by destruct (getStatus_returns _ _ _ _ _ _ _ Hst) as [[_ [=]] | [-> _]].
  - apply CheckImage_returns.
Qed.

End check.

(** ** The admission evaluator *)

Section evaluation.
Import opaimagescanner.
Context `{Runtime}.





End evaluation.

(** ** Concrete runs against the scripted engine *)

Section runs.
Import scripted.

Lemma getStatus_pass_iff_witness :
  getStatus (H := engine [ok "report:pass"]) client "sha256:aa" app []
  = (Return (true, None), [reported "sha256:aa" app (ok "report:pass")]).
Proof.
  apply (proj2 (proj1 (getStatus_pass_iff (H := engine [ok "report:pass"])
                         client "sha256:aa" app [] _))).
  exists (mkScanReport "PaSs" "detail"). split; vm_compute; reflexivity.
Defined.

Lemma toAdmissionResponse_denies_witness :
  admissionserver.Allowed
    (admissionserver.mkAdmissionResponse "uid-1" false
       (Some (admissionserver.mkStatus "no digest"))) = false.
Proof.
  apply (proj2 (toAdmissionResponse_denies "uid-1") (Some "no digest") [] []).
  reflexivity.
Defined.

Lemma getReport_integrity_witness :
  getReport (H := engine [ok "report:none"]) client "sha256:aa" app []
  = (Return (None, Some "Scan report list is empty"),
     [reported "sha256:aa" app (ok "report:none")]).
Proof.
  refine (proj1 (getReport_integrity (H := engine [ok "report:none"])
                   client "sha256:aa" app [] "report:none" [] _ _ _) _);
    vm_compute; reflexivity.
Defined.

Lemma getReport_missing_tag_panics_witness :
  getReport (H := engine [ok "report:notag"]) client "sha256:aa" app []
  = (Panic "runtime error: index out of range [0] with length 0",
     [reported "sha256:aa" app (ok "report:notag")]).
Proof.
  refine (getReport_missing_tag_panics (H := engine [ok "report:notag"])
            client "sha256:aa" app [] "report:notag" {[ "sha256:aa" := ∅ ]} _ _ _ _);
    vm_compute; reflexivity.
Defined.

Lemma non200_is_error_witness :
  getReport (H := engine [status 404]) client "sha256:aa" app []
  = (Return (None, Some errNotFound), [reported "sha256:aa" app (status 404)]).
Proof.
  refine (proj1 (proj2 (proj2 (non200_is_error (H := engine [status 404]) client [])))
            "sha256:aa" app "" _ _);
    vm_compute; reflexivity.
Defined.

(** C8, against the claim.  The engine answers 404 and the body cannot be
    read: were every 404 to give [errNotFound], [anchoreRequest] would
    return it here, but it returns the error of the failed read. *)
Lemma unreadable_404_is_not_NotFound :
  ¬ (∀ body,
       client_Do (Runtime := engine [Reply 404 (ReadError "unexpected EOF")]) []
         (reportRequest client "sha256:aa" app) = Reply 404 body →
       (anchoreRequest (H := engine [Reply 404 (ReadError "unexpected EOF")]) client
          "/images/sha256:aa/check?tag=docker.io/app:1&history=false&detail=true"
          None "GET" []).1
       = Return (None, Some errNotFound)).
Proof.
  intros Hclaim.
  specialize (Hclaim (ReadError "unexpected EOF") eq_refl).
  assert ((anchoreRequest (H := engine [Reply 404 (ReadError "unexpected EOF")]) client
             "/images/sha256:aa/check?tag=docker.io/app:1&history=false&detail=true"
             None "GET" []).1
          = Return (None, Some ("failed to complete request to Anchore: "
                                +:+ "unexpected EOF"))) as Hrun
    by (vm_compute; reflexivity).
  rewrite Hrun in Hclaim. vm_compute in Hclaim. congruence.
Qed.

Lemma getDigest_first_image_witness :
  getDigest (H := engine [ok "images:app"]) client app []
  = (Return ("sha256:aa", None), [resolved app (ok "images:app")]).
Proof.
  refine (proj1 (getDigest_first_image (H := engine [ok "images:app"])
                   client app [] "images:app" [mkImage "sha256:aa"] _ _ _)
            (mkImage "sha256:aa") [] _);
    vm_compute; reflexivity.
Defined.

Example getReport_two_entries :
  getReport (H := engine [ok "report:two"]) client "sha256:aa" app []
  = (Return (None, Some "Unexpected scan report: multiple entries"),
     [reported "sha256:aa" app (ok "report:two")]).
Proof. vm_compute; reflexivity. Qed.

Example getReport_other_digest :
  getReport (H := engine [ok "report:other"]) client "sha256:aa" app []
  = (Return (None, Some "Digest in the scan report does not match"),
     [reported "sha256:aa" app (ok "report:other")]).
Proof. vm_compute; reflexivity. Qed.

Example getDigest_no_image :
  getDigest (H := engine [ok "images:none"]) client app []
  = (Panic "runtime error: index out of range [0] with length 0",
     [resolved app (ok "images:none")]).
Proof. vm_compute; reflexivity. Qed.

Example CheckImage_passes :
  CheckImage (H := engine [ok ""; ok "images:app"; ok "report:pass"]) client app []
  = (Return (true, None),
     [registered app; resolved app (ok "images:app");
      reported "sha256:aa" app (ok "report:pass")]).
Proof. vm_compute; reflexivity. Qed.

(** Six attempts and five sleeps, then the deny. *)
Example CheckImage_never_found :
  CheckImage (H := engine (ok "" :: replicate 8 (status 404))) client app []
  = (Return (false, Some "Unable to obtain image digest"),
     [registered app;
      resolved app (status 404); Sleep time_Second;
      resolved app (status 404); Sleep time_Second;
      resolved app (status 404); Sleep time_Second;
      resolved app (status 404); Sleep time_Second;
      resolved app (status 404); Sleep time_Second;
      resolved app (status 404)]).
Proof. vm_compute; reflexivity. Qed.

(** The second attempt succeeds after a 404 on the first. *)
Lemma GetImageDigest_bounded_retry_witness :
  GetImageDigest (H := engine [ok ""; status 404; ok "images:app"]) client app []
  = (Return ("sha256:aa", None),
     [registered app; resolved app (status 404); Sleep time_Second;
      resolved app (ok "images:app")]).
Proof.
  refine (proj1 (proj2 (GetImageDigest_bounded_retry
                          (H := engine [ok ""; status 404; ok "images:app"])
                          client app []))
            [registered app] 1%nat "sha256:aa" _ _ _ _ _).
  - vm_compute; reflexivity.
  - lia.
  - intros j Hj. assert (j = 0%nat) as -> by lia.
    exists "", errNotFound. vm_compute; reflexivity.
  - vm_compute; reflexivity.
Defined.

(** C5, against the claim.  The first attempt fails with a 500, which is
    not [errNotFound]; were such an error returned to the caller,
    [GetImageDigest] would end with it, but it sleeps, tries again and
    returns the digest. *)
Lemma other_failure_is_retried :
  ¬ (∀ w0 digest e w1,
       addImage (H := engine [ok ""; status 500; ok "images:app"]) client app []
         = (Return None, w0) →
       getDigest (H := engine [ok ""; status 500; ok "images:app"]) client app w0
         = (Return (digest, Some e), w1) →
       e ≠ errNotFound →
       GetImageDigest (H := engine [ok ""; status 500; ok "images:app"]) client app []
         = (Return (digest, Some e), w1)).
Proof.
  intros Hclaim.
  specialize (Hclaim [registered app] "" "response from Anchore: 500"
                [registered app; resolved app (status 500)]).
  assert (GetImageDigest (H := engine [ok ""; status 500; ok "images:app"]) client app []
          = (Return ("sha256:aa", None),
             [registered app; resolved app (status 500); Sleep time_Second;
              resolved app (ok "images:app")])) as Hrun
    by (vm_compute; reflexivity).
  rewrite Hrun in Hclaim.
  discriminate Hclaim; [vm_compute; reflexivity .. | discriminate].
Qed.

Lemma GetImageDigest_retries_every_error_witness :
  GetImageDigest (H := engine [ok ""; status 500; ok "images:app"]) client app []
  = GetImageDigest_loop (H := engine [ok ""; status 500; ok "images:app"]) client app
      (Z.of_nat 0 + 1) (slept time_Second [registered app; resolved app (status 500)])
  ∧ ∃ resp evs,
      (GetImageDigest (H := engine [ok ""; status 500; ok "images:app"]) client app []).2
      = [registered app; resolved app (status 500)]
        ++ Sleep time_Second :: Exchange (resolveRequest client app) resp :: evs.
Proof.
  refine (GetImageDigest_retries_every_error
            (H := engine [ok ""; status 500; ok "images:app"])
            client app [] [registered app] 0%nat "" "response from Anchore: 500" _ _ _ _ _).
  - vm_compute; reflexivity.
  - lia.
  - intros j Hj. lia.
  - vm_compute; reflexivity.
Defined.

Lemma CheckImage_fail_closed_witness :
  CheckImage (H := engine [status 500]) client app []
  = (Return (false, Some "Unable to obtain image digest"),
     [Exchange (requestOf client "/images" (Some {[ "tag" := app ]}) "POST") (status 500)]).
Proof.
  refine (proj1 (CheckImage_fail_closed (H := engine [status 500]) client app [])
            "" "response from Anchore: 500" _ _).
  vm_compute; reflexivity.
Defined.


End runs.

(** * Further properties of the client *)

(** ** One request at a time: anchoreRequest and addImage *)

Section exchange.
Context `{Runtime}.

(** What [anchoreRequest] returns is a body without an error, on a 200
    whose body could be read, or an error without a body, on any other
    answer. *)
Theorem anchoreRequest_body_xor_error c path bodyParams method w body err w' :
  anchoreRequest c path bodyParams method w = (Return (body, err), w') →
  (∃ text, body = Some text ∧ err = None
           ∧ client_Do w (requestOf c path bodyParams method) = Reply 200 (BodyText text))
  ∨ (body = None ∧ is_Some err
     ∧ ∀ text, client_Do w (requestOf c path bodyParams method) ≠ Reply 200 (BodyText text)).
Proof.
  destruct (http_NewRequest method (baseUrl c +:+ path)) as [e|] eqn:Hnew.
  { by rewrite (anchoreRequest_exits _ _ _ _ _ _ Hnew). }
  rewrite (anchoreRequest_sends _ _ _ _ _ Hnew).
  destruct (client_Do _ _) as [e | code [text | e]]; simpl.
  - intros [= <- <- <-]. right. eauto.
  - case_bool_decide as Hcode; intros [= <- <- <-].
    + subst code. left. eauto.
    + right. split; [done |]. split; [eauto |]. intros text' [= ? ?]. done.
  - intros [= <- <- <-]. right. eauto.
Qed.

(** The error of [anchoreRequest] is [errNotFound] for a 404 whose body
    could be read, and for no other answer: neither another status code nor
    a failure of the transport is taken for a missing record. *)
Theorem anchoreRequest_NotFound_iff_404 c path bodyParams method w :
  http_NewRequest method (baseUrl c +:+ path) = None →
  (∃ body, (anchoreRequest c path bodyParams method w).1 = Return (body, Some errNotFound))
  ↔ ∃ text, client_Do w (requestOf c path bodyParams method) = Reply 404 (BodyText text).
Proof.
  intros Hnew. rewrite (anchoreRequest_sends _ _ _ _ _ Hnew). simpl. split.
  - intros [body Hret].
    destruct (client_Do _ _) as [e | code [text | e]]; simpl in Hret.
    + discriminate Hret.
    + case_bool_decide; [discriminate Hret |].
      assert ("response from Anchore: " +:+ pretty code = errNotFound) as Hmsg
        by congruence.
      change errNotFound with ("response from Anchore: " +:+ pretty 404) in Hmsg.
      apply (inj (String.app _)), (inj pretty) in Hmsg as ->. eauto.
    + discriminate Hret.
  - intros [text ->]. by eexists.
Qed.

Lemma addImage_sends c image w :
  http_NewRequest "POST" (baseUrl c +:+ "/images") = None →
  addImage c image w =
    (Return (received (client_Do w (registerRequest c image))).2,
     w ++ [Exchange (registerRequest c image) (client_Do w (registerRequest c image))]).
Proof.
  intros Hnew. unfold addImage.
  rewrite (bind_Return _ _ _ _ _ (anchoreRequest_sends _ _ _ _ _ Hnew)).
  change (requestOf c "/images" (Some {[ "tag" := image ]}) "POST")
    with (registerRequest c image).
  by destruct (received _) as [body [e|]].
Qed.


(** When the registration is refused, [GetImageDigest] returns the error of
    the registration with an empty digest after that one exchange: the
    digest is never asked for, and [CheckImage] denies. *)
Theorem GetImageDigest_registration_refused c image w :
  http_NewRequest "POST" (baseUrl c +:+ "/images") = None →
  (∀ text, client_Do w (registerRequest c image) ≠ Reply 200 (BodyText text)) →
  let w1 := w ++ [Exchange (registerRequest c image)
                           (client_Do w (registerRequest c image))] in
  (∃ e, GetImageDigest c image w = (Return ("", Some e), w1))
  ∧ CheckImage c image w = (Return (false, Some "Unable to obtain image digest"), w1).
Proof.
  intros Hnew Hrefused w1.
  assert (∃ e, addImage c image w = (Return (Some e), w1)) as [e Hadd].
  { rewrite (addImage_sends _ _ _ Hnew). subst w1.
    destruct (client_Do _ _) as [e | code [text | e]]; simpl; eauto.
    case_bool_decide as Hcode; simpl; eauto.
    subst code. by destruct (Hrefused text). }
  assert (GetImageDigest c image w = (Return ("", Some e), w1)) as Hdig.
  { unfold GetImageDigest. by rewrite (bind_Return _ _ _ _ _ Hadd). }
  split; [eauto |].
  unfold CheckImage. by rewrite (bind_Return _ _ _ _ _ Hdig).
Qed.

End exchange.

(** ** What the digest and the report can be *)

Section results.
Context `{Runtime}.

Lemma getDigest_cases c imageRef w digest err w' :
  getDigest c imageRef w = (Return (digest, err), w') →
  w' = w ++ [Exchange (resolveRequest c imageRef) (client_Do w (resolveRequest c imageRef))]
  ∧ ((err = None
      ∧ ∃ text image rest,
          client_Do w (resolveRequest c imageRef) = Reply 200 (BodyText text)
          ∧ json_Unmarshal_Images text = (image :: rest, None)
          ∧ digest = ImageDigest image)
     ∨ (is_Some err ∧ digest = "")).
Proof.
  destruct (http_NewRequest "GET" (URL (resolveRequest c imageRef))) as [e|] eqn:Hnew.
  { by rewrite (getDigest_exits _ _ _ _ Hnew). }
  rewrite (getDigest_answer _ _ _ Hnew).
  destruct (client_Do _ _) as [e | code [text | e]]; simpl.
  - intros [= <- <- <-]. eauto.
  - case_bool_decide as Hcode; simpl.
    + subst code.
      destruct (json_Unmarshal_Images text) as [[|image rest] [e|]] eqn:Hdec;
        intros [= <- <- <-]; eauto 10.
    + intros [= <- <- <-]. eauto.
  - intros [= <- <- <-]. eauto.
Qed.

Lemma GetImageDigest_loop_returns c image (n : nat) : ∀ count w digest err w',
  Z.to_nat (5 - count) = n →
  GetImageDigest_loop c image count w = (Return (digest, err), w') →
  (err = None
   ∧ ∃ w1 text img rest,
       w' = w1 ++ [Exchange (resolveRequest c image) (Reply 200 (BodyText text))]
       ∧ json_Unmarshal_Images text = (img :: rest, None)
       ∧ digest = ImageDigest img)
  ∨ (is_Some err ∧ digest = "").
Proof.
  induction n as [|n IH]; intros count w digest err w' Hn;
    rewrite GetImageDigest_loop_step;
    destruct (getDigest c image w) as [[[d [e|]] | msg | msg] w1] eqn:Hdig;
    try discriminate.
  - destruct (decide (count >= 5)); [| lia].
    intros [= <- <- <-].
    destruct (getDigest_cases _ _ _ _ _ _ Hdig) as [_ [[[=] _] | [_ ->]]]. eauto.
  - intros [= <- <- <-].
    destruct (getDigest_cases _ _ _ _ _ _ Hdig)
      as [-> [(_ & text & img & rest & -> & Hdec & ->) | [[? [=]] _]]].
    left. split; [done |]. by exists w, text, img, rest.
  - destruct (decide (count >= 5)); [lia |]. apply IH. lia.
  - intros [= <- <- <-].
    destruct (getDigest_cases _ _ _ _ _ _ Hdig)
      as [-> [(_ & text & img & rest & -> & Hdec & ->) | [[? [=]] _]]].
    left. split; [done |]. by exists w, text, img, rest.
Qed.

(** Whatever [GetImageDigest] returns is a digest without an error or an
    error with an empty digest; a returned digest is the digest of the
    first image record in the body of the 200 answer that ends the trace. *)
Theorem GetImageDigest_returns c image w digest err w' :
  GetImageDigest c image w = (Return (digest, err), w') →
  (err = None
   ∧ ∃ w1 text img rest,
       w' = w1 ++ [Exchange (resolveRequest c image) (Reply 200 (BodyText text))]
       ∧ json_Unmarshal_Images text = (img :: rest, None)
       ∧ digest = ImageDigest img)
  ∨ (is_Some err ∧ digest = "").
Proof.
  unfold GetImageDigest, mbind, Run_bind.
  destruct (addImage c image w) as [[[e|] | msg | msg] w0]; try discriminate.
  - intros [= <- <- <-]. eauto.
  - by apply (GetImageDigest_loop_returns c image 5).
Qed.

Lemma getReport_cases c digest tag w report err w' :
  getReport c digest tag w = (Return (report, err), w') →
  w' = w ++ [Exchange (reportRequest c digest tag) (client_Do w (reportRequest c digest tag))]
  ∧ ((err = None
      ∧ ∃ r text entry tags k rest,
          report = Some r
          ∧ client_Do w (reportRequest c digest tag) = Reply 200 (BodyText text)
          ∧ json_Unmarshal_ScanReports text = ([entry], None)
          ∧ entry !! digest = Some tags
          ∧ tags !! k = Some (r :: rest))
     ∨ (report = None ∧ is_Some err)).
Proof.
  destruct (http_NewRequest "GET" (URL (reportRequest c digest tag))) as [e|] eqn:Hnew.
  { unfold getReport.
    by rewrite (bind_Fatal _ _ _ _ _ (anchoreRequest_exits _ _ _ _ _ _ Hnew)). }
  rewrite (getReport_answer _ _ _ _ Hnew).
  destruct (client_Do _ _) as [e | code [text | e]]; simpl;
    try (intros [= <- <- <-]; eauto).
  case_bool_decide as Hcode; simpl; [| intros [= <- <- <-]; eauto].
  subst code.
  destruct (json_Unmarshal_ScanReports text) as [[|entry [|entry' result]] [e|]] eqn:Hdec;
    try (intros [= <- <- <-]; eauto).
  destruct (entry !! digest) as [tags|] eqn:Hentry; [| intros [= <- <- <-]; eauto].
  unfold mbind, Run_bind, MapKeys.
  set (w1 := w ++ [Exchange (reportRequest c digest tag) (Reply 200 (BodyText text))]).
  pose proof (reflect_MapKeys_perm w1 tags) as Hperm.
  destruct (reflect_MapKeys w1 tags) as [|k keys]; [discriminate |]. simpl.
  assert (k ∈ elements (dom tags)) as Hk by (rewrite <- Hperm; left).
  apply elem_of_elements, elem_of_dom in Hk as [reps Hreps].
  rewrite (lookup_total_correct _ _ _ Hreps).
  destruct reps as [|r rest]; [discriminate |]. simpl.
  intros [= <- <- <-]. split; [done |]. left. split; [done |].
  by exists r, text, entry, tags, k, rest.
Qed.

(** Whatever [getReport] returns is a report without an error or an error
    without a report, after one exchange; a returned report is the first
    report under one of the tag keys that the single entry of the decoded
    collection has for the queried digest. *)
Theorem getReport_returns c digest tag w report err w' :
  getReport c digest tag w = (Return (report, err), w') →
  w' = w ++ [Exchange (reportRequest c digest tag) (client_Do w (reportRequest c digest tag))]
  ∧ ((err = None
      ∧ ∃ r text entry tags k rest,
          report = Some r
          ∧ client_Do w (reportRequest c digest tag) = Reply 200 (BodyText text)
          ∧ json_Unmarshal_ScanReports text = ([entry], None)
          ∧ entry !! digest = Some tags
          ∧ tags !! k = Some (r :: rest))
     ∨ (report = None ∧ is_Some err)).
Proof. apply getReport_cases. Qed.

(** [getStatus] reads the status of the report only when there is one: it
    never dereferences a nil report, and it panics only when [getReport]
    itself panicked, with the same message. *)
Theorem getStatus_panics_only_with_getReport c digest tag w msg w' :
  getStatus c digest tag w = (Panic msg, w') →
  getReport c digest tag w = (Panic msg, w').
Proof.
  unfold getStatus, mbind, Run_bind.
  destruct (getReport c digest tag w) as [[[report err] | msg' | msg'] w1] eqn:Hrep;
    [| by intros [= -> ->] | by intros [=]].
  destruct (getReport_cases _ _ _ _ _ _ _ Hrep)
    as [_ [(-> & r & _ & _ & _ & _ & _ & -> & _) | [-> [e ->]]]]; simpl.
  - by case_bool_decide.
  - done.
Qed.

Lemma getReport_one_tag c digest tag w text
    (entry : gmap string (gmap string (list ScanReport))) k r rest :
  http_NewRequest "GET" (URL (reportRequest c digest tag)) = None →
  client_Do w (reportRequest c digest tag) = Reply 200 (BodyText text) →
  json_Unmarshal_ScanReports text = ([entry], None) →
  entry !! digest = Some {[ k := r :: rest ]} →
  getReport c digest tag w =
    (Return (Some r, None),
     w ++ [Exchange (reportRequest c digest tag) (Reply 200 (BodyText text))]).
Proof.
  intros Hnew Hdo Hdec Hentry. rewrite (getReport_answer _ _ _ _ Hnew), Hdo.
  simpl. rewrite Hdec, Hentry. unfold mbind, Run_bind, MapKeys.
  set (w1 := w ++ _).
  pose proof (reflect_MapKeys_perm w1 {[ k := r :: rest ]}) as Hperm.
  rewrite dom_singleton_L, elements_singleton in Hperm.
  apply Permutation_singleton_r in Hperm. rewrite Hperm. simpl.
  by rewrite lookup_total_singleton_eq.
Qed.

(** When the entry for the digest has a single tag key, [getReport] returns
    the first report under it, whether or not the key is the tag that was
    asked for; when there is no report under that key, it panics. *)
Theorem getReport_single_tag c digest tag w text
    (entry : gmap string (gmap string (list ScanReport))) k (reps : list ScanReport) :
  http_NewRequest "GET" (URL (reportRequest c digest tag)) = None →
  client_Do w (reportRequest c digest tag) = Reply 200 (BodyText text) →
  json_Unmarshal_ScanReports text = ([entry], None) →
  entry !! digest = Some {[ k := reps ]} →
  let w1 := w ++ [Exchange (reportRequest c digest tag) (Reply 200 (BodyText text))] in
  (∀ r rest, reps = r :: rest → getReport c digest tag w = (Return (Some r, None), w1))
  ∧ (reps = [] →
     getReport c digest tag w =
       (Panic "runtime error: index out of range [0] with length 0", w1)).
Proof.
  intros Hnew Hdo Hdec Hentry w1. split.
  - intros r rest ->. by apply (getReport_one_tag _ _ _ _ _ entry k r rest).
  - intros ->. rewrite (getReport_answer _ _ _ _ Hnew), Hdo.
    simpl. rewrite Hdec, Hentry. unfold mbind, Run_bind, MapKeys.
    pose proof (reflect_MapKeys_perm w1 {[ k := [] ]}) as Hperm.
    rewrite dom_singleton_L, elements_singleton in Hperm.
    apply Permutation_singleton_r in Hperm. subst w1. rewrite Hperm. simpl.
    by rewrite lookup_total_singleton_eq.
Qed.

(** A body that does not decode: [getReport] returns the decoder's error
    as it is, [getDigest] returns it behind the prefix "failed to unmarshal
    JSON from response: ", and neither uses what the decoder left in the
    value. *)
Theorem undecodable_body c w text e :
  (∀ digest tag (partial : ScanReports),
     http_NewRequest "GET" (URL (reportRequest c digest tag)) = None →
     client_Do w (reportRequest c digest tag) = Reply 200 (BodyText text) →
     json_Unmarshal_ScanReports text = (partial, Some e) →
     getReport c digest tag w =
       (Return (None, Some e),
        w ++ [Exchange (reportRequest c digest tag) (Reply 200 (BodyText text))]))
  ∧ (∀ imageRef (partial : list Image),
     http_NewRequest "GET" (URL (resolveRequest c imageRef)) = None →
     client_Do w (resolveRequest c imageRef) = Reply 200 (BodyText text) →
     json_Unmarshal_Images text = (partial, Some e) →
     getDigest c imageRef w =
       (Return ("", Some ("failed to unmarshal JSON from response: " +:+ e)),
        w ++ [Exchange (resolveRequest c imageRef) (Reply 200 (BodyText text))])).
Proof.
  split.
  - intros digest tag partial Hnew Hdo Hdec.
    rewrite (getReport_answer _ _ _ _ Hnew), Hdo. simpl. by rewrite Hdec.
  - intros imageRef partial Hnew Hdo Hdec.
    rewrite (getDigest_answer _ _ _ Hnew), Hdo. simpl. by rewrite Hdec.
Qed.

End results.

(** ** Traces: how much a check sends and sleeps *)

Section traces.
Context `{Runtime}.

Lemma requests_app evs1 evs2 : requests (evs1 ++ evs2) = (requests evs1 + requests evs2)%nat.
Proof. induction evs1 as [|[req resp | d] evs1 IH]; simpl; lia. Qed.

Lemma asleep_app evs1 evs2 : asleep (evs1 ++ evs2) = asleep evs1 + asleep evs2.
Proof. induction evs1 as [|[req resp | d] evs1 IH]; simpl; lia. Qed.

Lemma all_of_client_app c evs1 evs2 :
  all_of_client c evs1 → all_of_client c evs2 → all_of_client c (evs1 ++ evs2).
Proof. induction evs1 as [|[req resp | d] evs1 IH]; simpl; tauto. Qed.

Lemma requestOf_of_client c path bodyParams method :
  of_client c (requestOf c path bodyParams method).
Proof. repeat split. by exists path. Qed.

(** A trace of at most one request of the client and no sleep. *)
Lemma anchoreRequest_world c path bodyParams method w :
  ∃ evs, (anchoreRequest c path bodyParams method w).2 = w ++ evs
         ∧ (requests evs ≤ 1)%nat ∧ asleep evs = 0 ∧ all_of_client c evs.
Proof.
  destruct (http_NewRequest method (baseUrl c +:+ path)) as [e|] eqn:Hnew.
  - rewrite (anchoreRequest_exits _ _ _ _ _ _ Hnew). exists [].
    rewrite app_nil_r. simpl. repeat split; lia.
  - rewrite (anchoreRequest_sends _ _ _ _ _ Hnew). eexists [_]. simpl.
    repeat split; try lia. by exists path.
Qed.

Lemma addImage_world c image w :
  (addImage c image w).2
  = (anchoreRequest c "/images" (Some {[ "tag" := image ]}) "POST" w).2.
Proof.
  unfold addImage, mbind, Run_bind.
  by destruct (anchoreRequest _ _ _ _ _) as [[[body [e|]] | msg | msg] w1].
Qed.

Lemma getReport_world c digest tag w :
  (getReport c digest tag w).2
  = (anchoreRequest c ("/images/" +:+ digest +:+ "/check?tag=" +:+ tag
                       +:+ "&history=false&detail=true") None "GET" w).2.
Proof.
  unfold getReport, mbind at 1, Run_bind.
  destruct (anchoreRequest _ _ _ _ _) as [[[body [e|]] | msg | msg] w1]; simpl; try done.
  - by case_bool_decide.
  - destruct (json_Unmarshal_ScanReports _) as [[|entry [|entry' result]] [e|]];
      simpl; try done.
    unfold mbind, Run_bind, MapKeys. simpl.
    destruct (entry !! digest) as [tags|]; [| done].
    destruct (reflect_MapKeys w1 tags) as [|k keys]; [done |]. simpl.
    by destruct (tags !!! k).
Qed.

Lemma getStatus_world c digest tag w :
  (getStatus c digest tag w).2 = (getReport c digest tag w).2.
Proof.
  unfold getStatus, mbind, Run_bind.
  destruct (getReport c digest tag w) as [[[[report|] [e|]] | msg | msg] w1];
    simpl; try done.
  by case_bool_decide.
Qed.

Lemma attempts_measure c req evs n :
  attempts req evs n →
  requests evs = n
  ∧ asleep evs = Z.of_nat (n - 1) * time_Second
  ∧ (of_client c req → all_of_client c evs).
Proof.
  induction 1 as [| resp | resp evs n _ (IHr & IHs & IHc)]; simpl.
  - done.
  - done.
  - rewrite IHr, IHs. unfold time_Second.
    split; [lia | split; [lia | intros Hc; split; [done | by apply IHc]]].
Qed.

(** The last step of both [CheckImage] and [GetScanReport] adds at most the
    exchange of [getReport] to the trace of [GetImageDigest]. *)
Lemma CheckImage_world c image w :
  ∃ evs, (CheckImage c image w).2 = (GetImageDigest c image w).2 ++ evs
         ∧ (requests evs ≤ 1)%nat ∧ asleep evs = 0 ∧ all_of_client c evs.
Proof.
  unfold CheckImage, mbind at 1, Run_bind.
  destruct (GetImageDigest c image w) as [[[digest [e|]] | msg | msg] w1]; simpl;
    try (exists []; rewrite app_nil_r; simpl; repeat split; lia).
  rewrite getStatus_world, getReport_world. apply anchoreRequest_world.
Qed.

(** A call of [CheckImage] extends the trace by at most 8 requests, all of
    them under the client's base URL and carrying the client's token as the
    user name with an empty password, and by at most 5 seconds of sleep. *)
Theorem CheckImage_trace_bounded c image w :
  ∃ evs, (CheckImage c image w).2 = w ++ evs
         ∧ (requests evs ≤ 8)%nat
         ∧ 0 ≤ asleep evs ≤ 5 * time_Second
         ∧ all_of_client c evs.
Proof.
  destruct (CheckImage_world c image w) as (evs3 & -> & Hr3 & Hs3 & Hc3).
  destruct (GetImageDigest_trace c image w) as (evs2 & n & -> & Hatt & Hn).
  rewrite addImage_world.
  destruct (anchoreRequest_world c "/images" (Some {[ "tag" := image ]}) "POST" w)
    as (evs1 & -> & Hr1 & Hs1 & Hc1).
  destruct (attempts_measure c _ _ _ Hatt) as (Hr2 & Hs2 & Hc2).
  exists (evs1 ++ evs2 ++ evs3). rewrite <- !app_assoc. split; [done |].
  rewrite !requests_app, !asleep_app, Hs1, Hs2, Hs3, Hr2.
  split; [lia |]. split; [unfold time_Second; lia |].
  repeat apply all_of_client_app; try done.
  apply Hc2. apply (requestOf_of_client c "/images" _ "GET").
Qed.

(** [CheckImage] and [GetScanReport] leave the same trace; the verdict of
    [CheckImage] is the one the report of [GetScanReport] carries, and an
    error of [GetScanReport] is the error [CheckImage] denies with. *)
Theorem CheckImage_agrees_with_GetScanReport c image w :
  (GetScanReport c image w).2 = (CheckImage c image w).2
  ∧ (∀ report w',
       GetScanReport c image w = (Return (Some report, None), w') →
       CheckImage c image w =
         (Return (if equal_ignoring_case (Status report) "pass"
                  then (true, None) else (false, Some "Scan result is FAILED")), w'))
  ∧ (∀ report e w',
       GetScanReport c image w = (Return (report, Some e), w') →
       CheckImage c image w = (Return (false, Some e), w')).
Proof.
  unfold GetScanReport, CheckImage, mbind, Run_bind.
  destruct (GetImageDigest c image w) as [[[digest [e|]] | msg | msg] w1]; simpl.
  - split; [done | split]; [by intros report w' [=] |].
    by intros report e' w' [= <- <- <-].
  - split; [symmetry; apply getStatus_world | split].
    + intros report w' Hrep. by apply getStatus_of_report.
    + intros report e w' Hrep. by apply (getStatus_of_error _ _ _ _ report).
  - split; [done | split]; by intros.
  - split; [done | split]; by intros.
Qed.

End traces.

(** ** When the process exits, and the run of a scanned image *)

Section whole.
Context `{Runtime}.

Lemma addImage_exits c image w err :
  http_NewRequest "POST" (baseUrl c +:+ "/images") = Some err →
  addImage c image w = (Fatal err, w).
Proof.
  intros Hnew. unfold addImage.
  by rewrite (bind_Fatal _ _ _ _ _ (anchoreRequest_exits _ _ _ _ _ _ Hnew)).
Qed.

Lemma getReport_exits c digest tag w err :
  http_NewRequest "GET" (URL (reportRequest c digest tag)) = Some err →
  getReport c digest tag w = (Fatal err, w).
Proof.
  intros Hnew. unfold getReport.
  by rewrite (bind_Fatal _ _ _ _ _ (anchoreRequest_exits _ _ _ _ _ _ Hnew)).
Qed.

Lemma getDigest_stays c imageRef w msg :
  http_NewRequest "GET" (URL (resolveRequest c imageRef)) = None →
  (getDigest c imageRef w).1 ≠ Fatal msg.
Proof.
  intros Hnew. rewrite (getDigest_answer _ _ _ Hnew).
  destruct (received _) as [body [e|]]; [done |].
  by destruct (json_Unmarshal_Images _) as [[|image images] [e|]].
Qed.

Lemma GetImageDigest_loop_stays c image msg (n : nat) : ∀ count w,
  http_NewRequest "GET" (URL (resolveRequest c image)) = None →
  Z.to_nat (5 - count) = n →
  (GetImageDigest_loop c image count w).1 ≠ Fatal msg.
Proof.
  induction n as [|n IH]; intros count w Hnew Hn;
    rewrite GetImageDigest_loop_step;
    pose proof (getDigest_stays c image w msg Hnew) as Hstay;
    destruct (getDigest c image w) as [[[digest [e|]] | msg' | msg'] w1];
    simpl in Hstay |- *; try done.
  - destruct (decide (count >= 5)); [done | lia].
  - destruct (decide (count >= 5)); [done |]. apply IH; [done | lia].
Qed.

Lemma getReport_stays c digest tag w msg :
  http_NewRequest "GET" (URL (reportRequest c digest tag)) = None →
  (getReport c digest tag w).1 ≠ Fatal msg.
Proof.
  intros Hnew. rewrite (getReport_answer _ _ _ _ Hnew).
  destruct (received _) as [body [e|]]; [done |].
  destruct (json_Unmarshal_ScanReports _) as [[|entry [|entry' result]] [e|]]; try done.
  destruct (entry !! digest) as [tags|]; [| done].
  unfold mbind, Run_bind, MapKeys.
  destruct (reflect_MapKeys _ tags) as [|k keys]; [done |]. simpl.
  by destruct (tags !!! k).
Qed.

(** [getStatus] exits exactly when [getReport] does. *)
Lemma getStatus_exits_iff c digest tag w msg w' :
  getStatus c digest tag w = (Fatal msg, w') ↔ getReport c digest tag w = (Fatal msg, w').
Proof.
  unfold getStatus, mbind, Run_bind.
  destruct (getReport c digest tag w) as [[[[report|] [e|]] | msg' | msg'] w1];
    simpl; try case_bool_decide; try (by split; intros [=]).
  split; by intros [= -> ->].
Qed.

(** The exit of [GetImageDigest]: the registration request or, once the
    image is registered, the resolve request cannot be built. *)
Lemma GetImageDigest_exits_iff c image w msg w' :
  GetImageDigest c image w = (Fatal msg, w')
  ↔ (http_NewRequest "POST" (baseUrl c +:+ "/images") = Some msg ∧ w' = w)
    ∨ (addImage c image w = (Return None, w')
       ∧ http_NewRequest "GET" (baseUrl c +:+ "/images") = Some msg).
Proof.
  split.
  - unfold GetImageDigest, mbind, Run_bind.
    destruct (addImage c image w) as [[[e|] | msg' | msg'] w0] eqn:Hadd; try done.
    + intros Hloop. right.
      destruct (http_NewRequest "GET" (baseUrl c +:+ "/images")) as [err|] eqn:Hnew.
      * rewrite GetImageDigest_loop_step, (getDigest_exits _ _ _ _ Hnew) in Hloop.
        by injection Hloop as -> ->.
      * pose proof (GetImageDigest_loop_stays c image msg 5 0 w0 Hnew eq_refl) as Hstay.
        rewrite Hloop in Hstay. by destruct Hstay.
    + intros [= -> ->]. left.
      destruct (http_NewRequest "POST" (baseUrl c +:+ "/images")) as [err|] eqn:Hnew.
      * rewrite (addImage_exits _ _ _ _ Hnew) in Hadd. by injection Hadd as -> ->.
      * by rewrite (addImage_sends _ _ _ Hnew) in Hadd.
  - intros [[Hnew ->] | [Hadd Hnew]]; unfold GetImageDigest.
    + by rewrite (bind_Fatal _ _ _ _ _ (addImage_exits _ _ _ _ Hnew)).
    + rewrite (bind_Return _ _ _ _ _ Hadd), GetImageDigest_loop_step.
      by rewrite (getDigest_exits _ _ _ _ Hnew).
Qed.

(** [klog.Fatal] ends the process exactly when a request of the call cannot
    be built.  [CheckImage] exits with the error of [http.NewRequest] in
    three cases and in no other: the registration request is rejected, and
    nothing is sent; the image is registered and the resolve request is
    rejected; the digest is resolved and the report request for it is
    rejected.  [GetScanReport] exits exactly when [CheckImage] does. *)
Theorem exits_iff_request_unbuildable c image w msg w' :
  (CheckImage c image w = (Fatal msg, w')
   ↔ (http_NewRequest "POST" (baseUrl c +:+ "/images") = Some msg ∧ w' = w)
     ∨ (addImage c image w = (Return None, w')
        ∧ http_NewRequest "GET" (baseUrl c +:+ "/images") = Some msg)
     ∨ (∃ digest,
          GetImageDigest c image w = (Return (digest, None), w')
          ∧ http_NewRequest "GET" (URL (reportRequest c digest image)) = Some msg))
  ∧ (GetScanReport c image w = (Fatal msg, w')
     ↔ CheckImage c image w = (Fatal msg, w')).
Proof.
  split.
  - pose proof (GetImageDigest_exits_iff c image w msg w') as Hgid.
    enough (CheckImage c image w = (Fatal msg, w')
            ↔ GetImageDigest c image w = (Fatal msg, w')
              ∨ ∃ digest,
                  GetImageDigest c image w = (Return (digest, None), w')
                  ∧ http_NewRequest "GET" (URL (reportRequest c digest image)) = Some msg)
      as Hcut by tauto.
    clear Hgid. unfold CheckImage, mbind at 1, Run_bind.
    destruct (GetImageDigest c image w) as [[[digest [e|]] | msg' | msg'] w1] eqn:Hdig.
    + split; [done |]. intros [[=] | (digest' & [=] & _)].
    + rewrite getStatus_exits_iff. split.
      * intros Hrep. right. exists digest.
        destruct (http_NewRequest "GET" (URL (reportRequest c digest image)))
          as [err|] eqn:Hnew.
        -- rewrite (getReport_exits _ _ _ _ _ Hnew) in Hrep. by injection Hrep as -> ->.
        -- pose proof (getReport_stays c digest image w1 msg Hnew) as Hstay.
           rewrite Hrep in Hstay. by destruct Hstay.
      * intros [[=] | (digest' & [= <- <-] & Hnew)].
        by apply getReport_exits.
    + split; [done |]. intros [[=] | (digest' & [=] & _)].
    + split.
      * intros [= -> ->]. by left.
      * intros [[= -> ->] | (digest' & [=] & _)]. done.
  - unfold GetScanReport, CheckImage, mbind, Run_bind.
    destruct (GetImageDigest c image w) as [[[digest [e|]] | msg' | msg'] w1]; try done.
    + by rewrite getStatus_exits_iff.
    + split; by intros [= -> ->].
Qed.

(** The run of a scanned image.  The three requests of the call can be
    built, the engine accepts the registration, knows the image and has one
    report entry for its digest: [CheckImage] sends these three requests
    without sleeping, asks for the report of the digest of the first image
    record under the image reference as tag, and returns the verdict of the
    first report. *)
Theorem CheckImage_scanned_image c image w t0 t1 t2 img imgs
    (entry : gmap string (gmap string (list ScanReport))) k r rest :
  http_NewRequest "POST" (URL (registerRequest c image)) = None →
  http_NewRequest "GET" (URL (resolveRequest c image)) = None →
  http_NewRequest "GET" (URL (reportRequest c (ImageDigest img) image)) = None →
  let w1 := w ++ [Exchange (registerRequest c image) (Reply 200 (BodyText t0))] in
  let w2 := w1 ++ [Exchange (resolveRequest c image) (Reply 200 (BodyText t1))] in
  let w3 := w2 ++ [Exchange (reportRequest c (ImageDigest img) image)
                            (Reply 200 (BodyText t2))] in
  client_Do w (registerRequest c image) = Reply 200 (BodyText t0) →
  client_Do w1 (resolveRequest c image) = Reply 200 (BodyText t1) →
  json_Unmarshal_Images t1 = (img :: imgs, None) →
  client_Do w2 (reportRequest c (ImageDigest img) image) = Reply 200 (BodyText t2) →
  json_Unmarshal_ScanReports t2 = ([entry], None) →
  entry !! ImageDigest img = Some {[ k := r :: rest ]} →
  CheckImage c image w =
    (Return (if equal_ignoring_case (Status r) "pass"
             then (true, None) else (false, Some "Scan result is FAILED")), w3).
Proof.
  intros Hpost Hget Hcheck w1 w2 w3 Hreg Hres Himgs Hrep Hreps Hentry.
  assert (GetImageDigest c image w = (Return (ImageDigest img, None), w2)) as Hdig.
  { unfold GetImageDigest.
    rewrite (bind_Return _ _ _ _ _ (addImage_sends _ _ _ Hpost)), Hreg. simpl.
    rewrite GetImageDigest_loop_step, (getDigest_answer _ _ _ Hget).
    fold w1. rewrite Hres. simpl. by rewrite Himgs. }
  unfold CheckImage. rewrite (bind_Return _ _ _ _ _ Hdig).
  apply getStatus_of_report.
  by apply (getReport_one_tag _ _ _ _ _ entry k r rest).
Qed.

End whole.

(** ** Further concrete runs against the scripted engine *)

Section more_runs.
Import scripted.

Lemma anchoreRequest_body_xor_error_witness :
  (∃ text, Some "images:app" = Some text ∧ @None string = None
           ∧ client_Do (Runtime := engine [ok "images:app"]) []
               (requestOf client "/images" None "GET") = Reply 200 (BodyText text))
  ∨ (Some "images:app" = @None string ∧ is_Some (@None string)
     ∧ ∀ text, client_Do (Runtime := engine [ok "images:app"]) []
                 (requestOf client "/images" None "GET") ≠ Reply 200 (BodyText text)).
Proof.
  refine (anchoreRequest_body_xor_error (H := engine [ok "images:app"])
            client "/images" None "GET" [] (Some "images:app") None _ _).
  vm_compute; reflexivity.
Defined.

Lemma anchoreRequest_NotFound_iff_404_witness :
  ∃ body, (anchoreRequest (H := engine [status 404]) client "/images" None "GET" []).1
          = Return (body, Some errNotFound).
Proof.
  refine (proj2 (anchoreRequest_NotFound_iff_404 (H := engine [status 404])
                   client "/images" None "GET" [] _) _).
  - vm_compute; reflexivity.
  - exists "". vm_compute; reflexivity.
Defined.


Lemma GetImageDigest_registration_refused_witness :
  CheckImage (H := engine [status 500]) client app []
  = (Return (false, Some "Unable to obtain image digest"),
     [] ++ [Exchange (registerRequest client app)
              (client_Do (Runtime := engine [status 500]) [] (registerRequest client app))]).
Proof.
  refine (proj2 (GetImageDigest_registration_refused (H := engine [status 500])
                   client app [] _ _)).
  - vm_compute; reflexivity.
  - intros text. vm_compute. discriminate.
Defined.

Lemma GetImageDigest_returns_witness :
  (@None string = None
   ∧ ∃ w1 text img rest,
       [registered app; resolved app (status 404); Sleep time_Second;
        resolved app (ok "images:app")]
       = w1 ++ [Exchange (resolveRequest client app) (Reply 200 (BodyText text))]
       ∧ json_Unmarshal_Images (Runtime := engine [ok ""; status 404; ok "images:app"]) text
         = (img :: rest, None)
       ∧ "sha256:aa" = ImageDigest img)
  ∨ (is_Some (@None string) ∧ "sha256:aa" = "").
Proof.
  refine (GetImageDigest_returns (H := engine [ok ""; status 404; ok "images:app"])
            client app [] "sha256:aa" None
            [registered app; resolved app (status 404); Sleep time_Second;
             resolved app (ok "images:app")] _).
  vm_compute; reflexivity.
Defined.

Lemma getReport_returns_witness :
  [reported "sha256:aa" app (ok "report:pass")]
  = [] ++ [Exchange (reportRequest client "sha256:aa" app)
             (client_Do (Runtime := engine [ok "report:pass"]) []
                (reportRequest client "sha256:aa" app))]
  ∧ ((@None string = None
      ∧ ∃ r text entry tags k rest,
          Some (mkScanReport "PaSs" "detail") = Some r
          ∧ client_Do (Runtime := engine [ok "report:pass"]) []
              (reportRequest client "sha256:aa" app) = Reply 200 (BodyText text)
          ∧ json_Unmarshal_ScanReports (Runtime := engine [ok "report:pass"]) text
            = ([entry], None)
          ∧ entry !! "sha256:aa" = Some tags
          ∧ tags !! k = Some (r :: rest))
     ∨ (Some (mkScanReport "PaSs" "detail") = None ∧ is_Some (@None string))).
Proof.
  refine (getReport_returns (H := engine [ok "report:pass"]) client "sha256:aa" app []
            (Some (mkScanReport "PaSs" "detail")) None
            [reported "sha256:aa" app (ok "report:pass")] _).
  vm_compute; reflexivity.
Defined.

(** The report is filed under "docker.io/app:1" and is returned for the
    tag "docker.io/app:2" all the same. *)
Lemma getReport_single_tag_witness :
  getReport (H := engine [ok "report:pass"]) client "sha256:aa" "docker.io/app:2" []
  = (Return (Some (mkScanReport "PaSs" "detail"), None),
     [reported "sha256:aa" "docker.io/app:2" (ok "report:pass")]).
Proof.
  refine (proj1 (getReport_single_tag (H := engine [ok "report:pass"])
                   client "sha256:aa" "docker.io/app:2" [] "report:pass"
                   {[ "sha256:aa" := {[ "docker.io/app:1" := [mkScanReport "PaSs" "detail"] ]} ]}
                   "docker.io/app:1" [mkScanReport "PaSs" "detail"] _ _ _ _)
            (mkScanReport "PaSs" "detail") [] _);
    vm_compute; reflexivity.
Defined.

Lemma undecodable_body_witness :
  getDigest (H := engine [ok "<html>"]) client app []
  = (Return ("", Some ("failed to unmarshal JSON from response: " +:+ "invalid character")),
     [] ++ [Exchange (resolveRequest client app) (Reply 200 (BodyText "<html>"))]).
Proof.
  refine (proj2 (undecodable_body (H := engine [ok "<html>"]) client [] "<html>"
                   "invalid character") app [] _ _ _);
    vm_compute; reflexivity.
Defined.

Lemma CheckImage_agrees_with_GetScanReport_witness :
  CheckImage (H := engine [ok ""; ok "images:app"; ok "report:fail"]) client app []
  = (Return (if equal_ignoring_case (Status (mkScanReport "fail" "detail")) "pass"
             then (true, None) else (false, Some "Scan result is FAILED")),
     [registered app; resolved app (ok "images:app");
      reported "sha256:aa" app (ok "report:fail")]).
Proof.
  refine (proj1 (proj2 (CheckImage_agrees_with_GetScanReport
                          (H := engine [ok ""; ok "images:app"; ok "report:fail"])
                          client app []))
            (mkScanReport "fail" "detail") _ _).
  vm_compute; reflexivity.
Defined.

(** The report URL is the one that cannot be built: the process exits
    after the registration and the resolution, before the report is asked
    for. *)
Lemma exits_iff_request_unbuildable_witness :
  CheckImage
    (H := strict "https://anchore/images/sha256:aa/check?tag=docker.io/app:1&history=false&detail=true"
            [ok ""; ok "images:app"])
    client app []
  = (Fatal "net/url: invalid URL", [registered app; resolved app (ok "images:app")]).
Proof.
  refine (proj2 (proj1 (exits_iff_request_unbuildable
                          (H := strict "https://anchore/images/sha256:aa/check?tag=docker.io/app:1&history=false&detail=true"
                                  [ok ""; ok "images:app"])
                          client app [] _ _))
            (or_intror (or_intror (ex_intro _ "sha256:aa" (conj _ _)))));
    vm_compute; reflexivity.
Defined.

Lemma CheckImage_scanned_image_witness :
  CheckImage (H := engine [ok ""; ok "images:app"; ok "report:pass"]) client app []
  = (Return (if equal_ignoring_case (Status (mkScanReport "PaSs" "detail")) "pass"
             then (true, None) else (false, Some "Scan result is FAILED")),
     (([] ++ [Exchange (registerRequest client app) (Reply 200 (BodyText ""))])
        ++ [Exchange (resolveRequest client app) (Reply 200 (BodyText "images:app"))])
       ++ [Exchange (reportRequest client (ImageDigest (mkImage "sha256:aa")) app)
             (Reply 200 (BodyText "report:pass"))]).
Proof.
  refine (CheckImage_scanned_image (H := engine [ok ""; ok "images:app"; ok "report:pass"])
            client app [] "" "images:app" "report:pass" (mkImage "sha256:aa") []
            {[ "sha256:aa" := {[ "docker.io/app:1" := [mkScanReport "PaSs" "detail"] ]} ]}
            "docker.io/app:1" (mkScanReport "PaSs" "detail") [] _ _ _ _ _ _ _ _ _);
    vm_compute; reflexivity.
Defined.

Lemma getStatus_panics_only_with_getReport_witness :
  getReport (H := engine [ok "report:notag"]) client "sha256:aa" app []
  = (Panic "runtime error: index out of range [0] with length 0",
     [reported "sha256:aa" app (ok "report:notag")]).
Proof.
  refine (getStatus_panics_only_with_getReport (H := engine [ok "report:notag"])
            client "sha256:aa" app [] _ _ _).
  vm_compute; reflexivity.
Defined.

End more_runs.
